(** * The documentation crawler and the ingestion/query service of
      [backend/rag_service.py], as a shallow embedding.

    Conventions of the embedding.
    - A Python [str] is a [string], one [ascii] per character; [len] is
      [String.length].
    - A Python [int] ([page_count], [max_pages], [top_k]) is a [Z].
    - The set [visited_urls] is a [gset string]; the queue [urls_to_visit]
      and the ledger [self.scraped_pages] are lists, appended at the tail.
    - What the code reads from the outside (the network, the HTML parser,
      [urllib.parse], the retrieval engine) is gathered in records of
      functions; an operation that can raise returns a [result].
    - [print] calls are not modelled; the fetch and the politeness delay
      are recorded as events of a trace. *)

From Stdlib Require Import ZArith Ascii.
From Stdlib Require String.
From stdpp Require Import gmap strings list pretty sorting.

(** ** Python string operations used by the service *)

Module Py.

(** [s.startswith(p)] *)
Definition startswith (s p : string) : bool := String.prefix p s.

(** [re.compile(p).search(s)] for a pattern [p] without metacharacters,
    and [p in s]: does [p] occur in [s]? *)
Fixpoint contains (s p : string) : bool :=
  if String.prefix p s then true
  else match s with
       | EmptyString => false
       | String _ s' => contains s' p
       end.

(** [c.isspace()] on the 8-bit range. *)
Definition isspace (c : ascii) : bool :=
  let n := nat_of_ascii c in
  (Nat.leb 9 n && Nat.leb n 13) || (Nat.leb 28 n && Nat.leb n 32)
  || Nat.eqb n 133 || Nat.eqb n 160.

Fixpoint lstrip (s : string) : string :=
  match s with
  | EmptyString => EmptyString
  | String c s' => if isspace c then lstrip s' else s
  end.

(** [rstrip] keeps a character when it is not a space or when something
    is kept after it. *)
Fixpoint rstrip (s : string) : string :=
  match s with
  | EmptyString => EmptyString
  | String c s' =>
      match rstrip s' with
      | EmptyString => if isspace c then EmptyString else String c EmptyString
      | r => String c r
      end
  end.

(** [s.strip()] *)
Definition strip (s : string) : string := rstrip (lstrip s).

Definition newline : ascii := ascii_of_nat 10.

Fixpoint newlines (n : nat) : string :=
  match n with
  | O => EmptyString
  | S n' => String newline (newlines n')
  end.

(** [re.sub(r'\n{3,}', '\n\n', s)]: [pending] counts the newlines of the
    run being read; a run of three or more is written back as two. *)
Fixpoint sub_newlines (pending : nat) (s : string) : string :=
  match s with
  | EmptyString => newlines (Nat.min pending 2)
  | String c s' =>
      if Ascii.eqb c newline then sub_newlines (S pending) s'
      else newlines (Nat.min pending 2) +:+ String c (sub_newlines 0 s')
  end.

(** [s.replace(old, new)] for a non-empty [old]: [skip] counts the
    characters of a matched occurrence still to be dropped. *)
Fixpoint replace_from (old new : string) (skip : nat) (s : string) : string :=
  match s with
  | EmptyString => EmptyString
  | String c s' =>
      match skip with
      | S k => replace_from old new k s'
      | O =>
          if String.prefix old s
          then new +:+ replace_from old new (String.length old - 1) s'
          else String c (replace_from old new 0 s')
      end
  end.

Definition replace (s old new : string) : string := replace_from old new 0 s.

(** [s.split('/')[-1]]: [acc] is the segment being read. *)
Fixpoint last_segment_from (acc s : string) : string :=
  match s with
  | EmptyString => acc
  | String c s' =>
      if Ascii.eqb c "/"%char then last_segment_from EmptyString s'
      else last_segment_from (acc +:+ String c EmptyString) s'
  end.

Definition last_segment (s : string) : string := last_segment_from EmptyString s.

(** [s[:n]] *)
Definition slice_to (n : nat) (s : string) : string := String.substring 0 n s.

(** [a or b] on values whose falsy case is [None]. *)
Definition or_else {A} (a b : option A) : option A :=
  match a with Some _ => a | None => b end.

End Py.

(** The outcome of an operation that can raise; [Raise] carries [str(e)]. *)
Inductive result (A : Type) : Type :=
  | Ok (a : A)
  | Raise (msg : string).
Arguments Ok {A} a.
Arguments Raise {A} msg.

(** ** Data model *)

Record Metadata := {
  md_source : string;
  md_title : string;
  md_page_number : Z
}.

(** [Document(text=..., metadata={...})] *)
Record Document := {
  text : string;
  metadata : Metadata
}.

(** An entry of [self.scraped_pages]. *)
Record CrawlRecord := {
  pg_url : string;
  pg_title : string;
  pg_length : nat;
  pg_page_number : Z
}.

(** ** The parsed page, as the scraper observes it *)

(** A tag selected as content region. [text_strip] is
    [get_text(strip=True)] on the tag as parsed; [text_lines] is
    [get_text(separator='\n', strip=True)] and [hrefs] the [href] values of
    [find_all('a', href=True)], both read after the nav, header, footer,
    script, style, aside and button subtrees have been decomposed. *)
Record Region := {
  text_strip : string;
  text_lines : string;
  hrefs : list string
}.

(** The [soup] of one response: the result of each [find] of the selector
    cascade, [find_all('div')], and [soup.title] as line 149 reads it:
    [None] without a title tag, [Some None] for a title tag whose
    [.string] is [None] (an empty title, or one with several children). *)
Record Page := {
  find_article : option Region;
  find_main : option Region;
  find_div_class_content : option Region;
  find_div_role_main : option Region;
  find_div_class_markdown : option Region;
  find_div_id_content : option Region;
  find_div_class_docs_content : option Region;
  find_div_class_page_content : option Region;
  find_section_class_content : option Region;
  find_all_div : list Region;
  soup_title : option (option string)
}.

(** [urlparse(url)], the two fields the scraper reads. *)
Record ParseResult := {
  scheme : string;
  netloc : string
}.

(** The world outside the service during one crawl: [http_get] is
    [requests.get] followed by [raise_for_status] and the parse ([None]
    when either raises); [urlparse] and [urljoin] are those of
    [urllib.parse] (both raise [ValueError] on some inputs). *)
Record World := {
  http_get : string -> option Page;
  urlparse : string -> result ParseResult;
  urljoin : string -> string -> result string
}.

(** The calls that reach the outside, in the order they are made:
    [requests.get], [time.sleep(0.5)], and the three uses of the retrieval
    engine ([VectorStoreIndex.from_documents], [index.insert], and
    [as_query_engine(similarity_top_k=top_k)] with its [query]). *)
Inductive Event :=
  | EvGet (url : string)
  | EvSleep
  | EvFromDocuments (docs : list Document)
  | EvInsert (doc : Document)
  | EvQuery (top_k : Z) (question : string).

(** ** Content selection and extraction (lines 110-159) *)

(** [max(all_divs, key=lambda d: len(d.get_text(strip=True)))]: the first
    [div] of greatest text length. *)
Definition largest_div (d : Region) (ds : list Region) : Region :=
  fold_left
    (fun best d' =>
       if Nat.ltb (String.length (text_strip best)) (String.length (text_strip d'))
       then d' else best)
    ds d.

(** The selector cascade, then the fallback on the largest [div], dropped
    when its text is under 500 characters. *)
Definition select_main_content (soup : Page) : option Region :=
  let main_content :=
    Py.or_else (find_article soup)
   (Py.or_else (find_main soup)
   (Py.or_else (find_div_class_content soup)
   (Py.or_else (find_div_role_main soup)
   (Py.or_else (find_div_class_markdown soup)
   (Py.or_else (find_div_id_content soup)
   (Py.or_else (find_div_class_docs_content soup)
   (Py.or_else (find_div_class_page_content soup)
               (find_section_class_content soup)))))))) in
  match main_content with
  | Some r => Some r
  | None =>
      match find_all_div soup with
      | [] => None
      | d :: ds =>
          let m := largest_div d ds in
          if Nat.ltb (String.length (text_strip m)) 500 then None else Some m
      end
  end.

(** Lines 140-144: the text of the region, runs of newlines collapsed,
    stripped. *)
Definition extract_text (main_content : Region) : string :=
  Py.strip (Py.sub_newlines 0 (text_lines main_content)).

(** The suffix the site appends to its titles; its characters outside the
    8-bit range are held as their UTF-8 bytes. *)
Definition branding_suffix : string := " | 🦜️🔗 LangChain".

(** Lines 149-150. [soup.title.string] can be [None], and
    [None.replace] raises [AttributeError]. *)
Definition page_title (soup : Page) (url : string) : result string :=
  let title :=
    match soup_title soup with
    | Some t => t
    | None => Some (Py.last_segment url)
    end in
  match title with
  | Some t => Ok (Py.strip (Py.replace t branding_suffix ""))
  | None => Raise "'NoneType' object has no attribute 'replace'"
  end.

(** ** The link filter (lines 176-190) *)

Inductive LinkOutcome :=
  | Skipped
  | Followed (full_url : string)
  | LinkRaised (msg : string).

Definition langgraph_path_pattern : string := "/langgraph/".

(** The decision taken for one [href] found on the page [url], with the
    visited set and the queue as they are at that point of the loop. *)
Definition should_follow (w : World) (base_domain url : string)
    (visited_urls : gset string) (urls_to_visit : list string)
    (href : string) : LinkOutcome :=
  if Py.startswith href "#"
     || (Py.startswith href "http" && negb (Py.startswith href base_domain))
  then Skipped
  else
    match urljoin w url href with
    | Raise msg => LinkRaised msg
    | Ok full_url =>
        if Py.startswith full_url base_domain
           && Py.contains full_url langgraph_path_pattern
           && negb (bool_decide (full_url ∈ visited_urls))
           && negb (bool_decide (full_url ∈ urls_to_visit))
        then Followed full_url
        else Skipped
    end.

(** The [for link in ...] loop: the queue after it, or the exception that
    ended it together with the queue as it was left. *)
Fixpoint discover_links (w : World) (base_domain url : string)
    (visited_urls : gset string) (links : list string)
    (urls_to_visit : list string) : list string * option string :=
  match links with
  | [] => (urls_to_visit, None)
  | href :: links' =>
      match should_follow w base_domain url visited_urls urls_to_visit href with
      | Skipped =>
          discover_links w base_domain url visited_urls links' urls_to_visit
      | Followed full_url =>
          discover_links w base_domain url visited_urls links'
            (urls_to_visit ++ [full_url])
      | LinkRaised msg => (urls_to_visit, Some msg)
      end
  end.

(** ** The crawl loop (lines 76-208) *)

Record CrawlState := {
  documents : list Document;
  visited_urls : gset string;
  urls_to_visit : list string;
  page_count : Z;
  scraped_pages : list CrawlRecord;
  trace : list Event
}.

Definition log (e : Event) (st : CrawlState) : CrawlState :=
  {| documents := documents st; visited_urls := visited_urls st;
     urls_to_visit := urls_to_visit st; page_count := page_count st;
     scraped_pages := scraped_pages st; trace := trace st ++ [e] |}.

(** Lines 152-159: the Document built for a page. *)
Definition document_of (url title text : string) (n : Z) : Document :=
  {| text := text;
     metadata := {| md_source := url; md_title := title; md_page_number := n |} |}.

(** Lines 163-168: its ledger entry. *)
Definition record_of (url title text : string) (n : Z) : CrawlRecord :=
  {| pg_url := url; pg_title := title; pg_length := String.length text;
     pg_page_number := n |}.

(** Lines 160-168: both are appended. *)
Definition add_page (url title text : string) (st : CrawlState) : CrawlState :=
  {| documents := documents st ++ [document_of url title text (page_count st)];
     visited_urls := visited_urls st;
     urls_to_visit := urls_to_visit st;
     page_count := page_count st;
     scraped_pages :=
       scraped_pages st ++ [record_of url title text (page_count st)];
     trace := trace st |}.

Definition set_queue (q : list string) (st : CrawlState) : CrawlState :=
  {| documents := documents st; visited_urls := visited_urls st;
     urls_to_visit := q; page_count := page_count st;
     scraped_pages := scraped_pages st; trace := trace st |}.

(** Lines 93-97, for a [url] just popped that is not yet visited. *)
Definition mark_visited (url : string) (st : CrawlState) : CrawlState :=
  {| documents := documents st; visited_urls := {[url]} ∪ visited_urls st;
     urls_to_visit := urls_to_visit st; page_count := (page_count st + 1)%Z;
     scraped_pages := scraped_pages st; trace := trace st |}.

(** The body of the [try] (lines 100-198) with its [except]: every path
    that does not raise ends with the sleep; a path that raises keeps what
    was done before the exception and skips the sleep. *)
Definition visit_page (w : World) (base_domain : string) (max_pages : Z)
    (url : string) (st : CrawlState) : CrawlState :=
  let st := log (EvGet url) st in
  match http_get w url with
  | None => st
  | Some soup =>
      match select_main_content soup with
      | Some main_content =>
          let text := extract_text main_content in
          if Nat.ltb 300 (String.length text) then
            match page_title soup url with
            | Raise _ => st
            | Ok title =>
                let st := add_page url title text st in
                if (page_count st <? max_pages)%Z then
                  match discover_links w base_domain url (visited_urls st)
                          (hrefs main_content) (urls_to_visit st) with
                  | (q, None) => log EvSleep (set_queue q st)
                  | (q, Some _) => set_queue q st
                  end
                else log EvSleep st
            end
          else log EvSleep st
      | None => log EvSleep st
      end
  end.

(** One iteration of the [while] (lines 90-202), taken when the guard
    holds. *)
Definition loop_body (w : World) (base_domain : string) (max_pages : Z)
    (st : CrawlState) : CrawlState :=
  match urls_to_visit st with
  | [] => st
  | url :: rest =>
      let st := set_queue rest st in
      if bool_decide (url ∈ visited_urls st) then st
      else visit_page w base_domain max_pages url (mark_visited url st)
  end.

(** [urls_to_visit and page_count < max_pages] *)
Definition loop_guard (max_pages : Z) (st : CrawlState) : bool :=
  match urls_to_visit st with
  | [] => false
  | _ :: _ => (page_count st <? max_pages)%Z
  end.

(** The [while] loop, run for at most [fuel] iterations: [None] when the
    guard still holds after them. *)
Fixpoint crawl_loop (fuel : nat) (w : World) (base_domain : string)
    (max_pages : Z) (st : CrawlState) : option CrawlState :=
  if loop_guard max_pages st then
    match fuel with
    | O => None
    | S fuel' =>
        crawl_loop fuel' w base_domain max_pages
          (loop_body w base_domain max_pages st)
    end
  else Some st.

(** Lines 76-87: the state before the loop; [ledger] is
    [self.scraped_pages] as the call finds it. *)
Definition init_state (ledger : list CrawlRecord) (start_url : string)
    : CrawlState :=
  {| documents := []; visited_urls := ∅; urls_to_visit := [start_url];
     page_count := 0; scraped_pages := ledger; trace := [] |}.

(** [scrape_langchain_docs(start_url, max_pages)]. The loop visits a new
    page at every iteration, so [max_pages] iterations are enough
    ([scrape_langchain_docs_returns] below): the result is [None] in no
    case. The returned state holds the documents, the ledger and the
    trace. *)
Definition scrape_langchain_docs (w : World) (ledger : list CrawlRecord)
    (start_url : string) (max_pages : Z) : option (result CrawlState) :=
  match urlparse w start_url with
  | Raise msg => Some (Raise msg)
  | Ok parsed_start =>
      let base_domain := scheme parsed_start +:+ "://" +:+ netloc parsed_start in
      match crawl_loop (Z.to_nat max_pages) w base_domain max_pages
              (init_state ledger start_url) with
      | Some st => Some (Ok st)
      | None => None
      end
  end.

(** ** The service: ingestion and query (lines 210-329) *)

Inductive Status := success | error.

(** A node of [response.source_nodes]. [node_score] is [None] when the
    node has no [score] attribute or holds [None]; [node_metadata] is
    [None] when it has no [metadata] attribute. *)
Record Node (Score : Type) := {
  node_text : string;
  node_score : option Score;
  node_metadata : option Metadata
}.
Arguments node_text {Score} _.
Arguments node_score {Score} _.
Arguments node_metadata {Score} _.

(** The engine's response: [str(response)], and [source_nodes] when the
    response has that attribute. *)
Record Response (Score : Type) := {
  response_str : string;
  source_nodes : option (list (Node Score))
}.
Arguments response_str {Score} _.
Arguments source_nodes {Score} _.

(** The retrieval engine and the generation behind it. [insert] changes
    the index in place, so it yields the index as it is left, also when
    it raises; [run_query] is [as_query_engine(similarity_top_k=top_k,
    response_mode="compact").query(question)]. *)
Record Engine (Index Score : Type) := {
  from_documents : list Document -> result Index;
  insert : Index -> Document -> Index * option string;
  run_query : Index -> Z -> string -> result (Response Score)
}.
Arguments from_documents {Index Score} _ _.
Arguments insert {Index Score} _ _ _.
Arguments run_query {Index Score} _ _ _ _.

(** The attributes of [RAGService] that the two operations use. *)
Record RAGService (Index : Type) := {
  self_index : option Index;
  self_scraped_pages : list CrawlRecord
}.
Arguments self_index {Index} _.
Arguments self_scraped_pages {Index} _.

(** The dictionary returned by [ingest_documents]; the two counts are
    present in the success shape only. *)
Record IngestResult := {
  i_status : Status;
  i_message : string;
  i_document_count : option nat;
  i_pages_scraped : list CrawlRecord;
  i_total_characters : option nat
}.

(** An entry of ["sources"]; [src_metadata] is [None] for [{}]. *)
Record Source (Score : Type) := {
  src_text : string;
  src_score : option Score;
  src_metadata : option Metadata
}.
Arguments src_text {Score} _.
Arguments src_score {Score} _.
Arguments src_metadata {Score} _.

(** The dictionary returned by [query]. *)
Record QueryResult (Score : Type) := {
  q_status : Status;
  q_answer : string;
  q_sources : list (Source Score)
}.
Arguments q_status {Score} _.
Arguments q_answer {Score} _.
Arguments q_sources {Score} _.

(** Truth value of an optional string and of an optional list. *)
Definition truthy_str (s : option string) : bool :=
  match s with
  | Some (String _ _) => true
  | _ => false
  end.

Definition truthy_list {A} (l : option (list A)) : bool :=
  match l with
  | Some (_ :: _) => true
  | _ => false
  end.

(** [sum(len(doc.text) for doc in documents)] *)
Definition total_characters (docs : list Document) : nat :=
  foldr (fun doc n => String.length (text doc) + n) 0 docs.

Section Service.

Context {Index Score : Type}.

(** Lines 250-251: the inserts, in order, up to the first that raises. *)
Fixpoint insert_all (eng : Engine Index Score) (idx : Index)
    (docs : list Document) : Index * option string * list Event :=
  match docs with
  | [] => (idx, None, [])
  | doc :: docs' =>
      match insert eng idx doc with
      | (idx', Some msg) => (idx', Some msg, [EvInsert doc])
      | (idx', None) =>
          let '(idx'', r, tr) := insert_all eng idx' docs' in
          (idx'', r, EvInsert doc :: tr)
      end
  end.

(** Lines 241-251: [self.index] after the step, the exception if the
    engine raised, and the engine calls made. *)
Definition index_documents (eng : Engine Index Score)
    (index : option Index) (docs : list Document)
    : option Index * option string * list Event :=
  match index with
  | None =>
      match from_documents eng docs with
      | Ok idx => (Some idx, None, [EvFromDocuments docs])
      | Raise msg => (None, Some msg, [EvFromDocuments docs])
      end
  | Some idx =>
      let '(idx', r, tr) := insert_all eng idx docs in
      (Some idx', r, tr)
  end.

(** The [except] of [ingest_documents] (lines 263-272). *)
Definition ingest_error (msg : string) (ledger : list CrawlRecord)
    : IngestResult :=
  {| i_status := error;
     i_message := "Error during ingestion: " +:+ msg;
     i_document_count := None;
     i_pages_scraped := ledger;
     i_total_characters := None |}.

(** Lines 226-229: the documents to ingest and the ledger after the
    optional crawl, which starts from the ledger just reset. *)
Definition gather (w : World) (docs : option (list Document))
    (url : option string) (max_pages : Z)
    : option (result (option (list Document) * list CrawlRecord * list Event)) :=
  match url with
  | Some u =>
      if truthy_str url && negb (truthy_list docs) then
        match scrape_langchain_docs w [] u max_pages with
        | None => None
        | Some (Raise msg) => Some (Raise msg)
        | Some (Ok st) =>
            Some (Ok (Some (documents st), scraped_pages st, trace st))
        end
      else Some (Ok (docs, [], []))
  | None => Some (Ok (docs, [], []))
  end.

(** [ingest_documents(documents, url, max_pages)]: the service after the
    call, the dictionary returned and the outside calls made. The first
    statement resets [self.scraped_pages]; nothing below reads the value
    it had. The result is [None] only if the crawl is (see
    [scrape_langchain_docs]). *)
Definition ingest_documents (w : World) (eng : Engine Index Score)
    (self : RAGService Index) (docs : option (list Document))
    (url : option string) (max_pages : Z)
    : option (RAGService Index * IngestResult * list Event) :=
  let self := {| self_index := self_index self; self_scraped_pages := [] |} in
  match gather w docs url max_pages with
  | None => None
  | Some (Raise msg) =>
      Some (self, ingest_error msg (self_scraped_pages self), [])
  | Some (Ok (docs, ledger, tr)) =>
      let self := {| self_index := self_index self;
                     self_scraped_pages := ledger |} in
      if negb (truthy_list docs) then
        Some (self,
              {| i_status := error;
                 i_message := "No documents provided or scraped";
                 i_document_count := None;
                 i_pages_scraped := [];
                 i_total_characters := None |},
              tr)
      else
        let docs := default [] docs in
        match index_documents eng (self_index self) docs with
        | (index', Some msg, tr') =>
            Some ({| self_index := index'; self_scraped_pages := ledger |},
                  ingest_error msg ledger, tr ++ tr')
        | (index', None, tr') =>
            Some ({| self_index := index'; self_scraped_pages := ledger |},
                  {| i_status := success;
                     i_message := "Successfully ingested "
                                  +:+ pretty (length docs) +:+ " documents";
                     i_document_count := Some (length docs);
                     i_pages_scraped := ledger;
                     i_total_characters := Some (total_characters docs) |},
                  tr ++ tr')
        end
  end.

(** Line 309: [node.text[:300] + "..." if len(node.text) > 300 else
    node.text] *)
Definition source_text (t : string) : string :=
  if Nat.ltb 300 (String.length t) then Py.slice_to 300 t +:+ "..." else t.

(** Lines 308-312 *)
Definition source_of_node (node : Node Score) : Source Score :=
  {| src_text := source_text (node_text node);
     src_score := node_score node;
     src_metadata := node_metadata node |}.

(** [query(question, top_k)]: the dictionary returned and the engine
    calls made. *)
Definition query (eng : Engine Index Score) (self : RAGService Index)
    (question : string) (top_k : Z) : QueryResult Score * list Event :=
  match self_index self with
  | None =>
      ({| q_status := error;
          q_answer := "No documents have been ingested yet. Please ingest documents first.";
          q_sources := [] |}, [])
  | Some idx =>
      match run_query eng idx top_k question with
      | Raise msg =>
          ({| q_status := error;
              q_answer := "Error during query: " +:+ msg;
              q_sources := [] |}, [EvQuery top_k question])
      | Ok response =>
          ({| q_status := success;
              q_answer := response_str response;
              q_sources :=
                match source_nodes response with
                | Some nodes => map source_of_node nodes
                | None => []
                end |}, [EvQuery top_k question])
      end
  end.

End Service.

(** ** The rest of the service: start-up, statistics, health and the
       HTTP front (lines 33-60 and 331-453) *)

(** What persists outside the process: [from_vector_store] is
    [VectorStoreIndex.from_vector_store(...)] at start-up, which raises
    when no index can be loaded; [collection_count] is
    [self.collection.count()] for the collection behind the index. *)
Record Store (Index : Type) := {
  from_vector_store : result Index;
  collection_count : Index -> result Z
}.
Arguments from_vector_store {Index} _.
Arguments collection_count {Index} _ _.

(** The dictionary returned by [get_stats], one constructor per shape. *)
Inductive StatsResult :=
  | StatsNoIndex (message : string)
  | StatsSuccess (document_count : nat) (vector_count : Z)
      (pages : list CrawlRecord)
  | StatsError (message : string).

(** The body of [GET /health]. *)
Record HealthBody := {
  h_status : string;
  index_ready : bool;
  documents_ingested : nat
}.

(** The JSON body of [POST /ingest]; [None] is a missing key. *)
Record IngestRequest := {
  req_url : option string;
  req_max_pages : option Z
}.

(** The JSON body of [POST /query]; [None] is a missing key. *)
Record QueryRequest := {
  req_question : option string;
  req_top_k : option Z
}.

Definition default_url : string :=
  "https://docs.langchain.com/oss/python/langgraph/overview".

Section Front.

Context {Index Score : Type}.

(** [RAGService.__init__], from line 45 on, for a start-up in which the
    Chroma client, the collection and the storage context were created:
    no index and an empty ledger, then the attempt to load the persisted
    index, whose failure is swallowed by the bare [except]. *)
Definition init_service (store : Store Index) : RAGService Index :=
  {| self_index :=
       match from_vector_store store with
       | Ok idx => Some idx
       | Raise _ => None
       end;
     self_scraped_pages := [] |}.

(** [get_stats()] *)
Definition get_stats (store : Store Index) (self : RAGService Index)
    : StatsResult :=
  match self_index self with
  | None => StatsNoIndex "No documents ingested yet"
  | Some idx =>
      match collection_count store idx with
      | Raise msg => StatsError msg
      | Ok n =>
          StatsSuccess (length (self_scraped_pages self)) n
            (self_scraped_pages self)
      end
  end.

(** [GET /health] *)
Definition health (self : RAGService Index) : HealthBody :=
  {| h_status := "healthy";
     index_ready := bool_decide (is_Some (self_index self));
     documents_ingested := length (self_scraped_pages self) |}.

(** [200 if result['status'] == 'success' else 400] *)
Definition status_code (s : Status) : Z :=
  match s with
  | success => 200
  | error => 400
  end.

(** [POST /ingest] with a JSON object as body: the service after the
    request, the body and the status code of the response, and the outside
    calls made. *)
Definition ingest_endpoint (w : World) (eng : Engine Index Score)
    (self : RAGService Index) (data : IngestRequest)
    : option (RAGService Index * (IngestResult * Z) * list Event) :=
  let url := default default_url (req_url data) in
  let max_pages := default 30%Z (req_max_pages data) in
  match ingest_documents w eng self None (Some url) max_pages with
  | None => None
  | Some (self', result, tr) =>
      Some (self', (result, status_code (i_status result)), tr)
  end.

(** [POST /query]; [data] is [None] for a body that is [null] or the empty
    object. *)
Definition query_endpoint (eng : Engine Index Score)
    (self : RAGService Index) (data : option QueryRequest)
    : QueryResult Score * Z * list Event :=
  let missing :=
    ({| q_status := error;
        q_answer := "Missing 'question' in request body";
        q_sources := [] |}, 400%Z, []) in
  match data with
  | None => missing
  | Some body =>
      match req_question body with
      | None => missing
      | Some question =>
          let top_k := default 3%Z (req_top_k body) in
          let '(result, tr) := query eng self question top_k in
          (result, status_code (q_status result), tr)
      end
  end.

(** [GET /stats]: [jsonify(result)] alone, hence the status code 200. *)
Definition stats_endpoint (store : Store Index) (self : RAGService Index)
    : StatsResult * Z :=
  (get_stats store self, 200%Z).

End Front.

(** ** Invariant of the crawl loop *)

(** The ledger entry that goes with a Document. *)
Definition record_of_document (d : Document) : CrawlRecord :=
  {| pg_url := md_source (metadata d);
     pg_title := md_title (metadata d);
     pg_length := String.length (text d);
     pg_page_number := md_page_number (metadata d) |}.

(** What holds of the loop state before and after every iteration of a
    crawl that found the ledger [ledger0]: the page count is the size of
    the visited set and within the budget; the queue has no duplicate and
    no visited URL; the ledger is [ledger0] followed by one entry per
    Document, in order; every Document is of a visited page, numbered by a
    page count already reached, and longer than 300 characters; sources
    and page numbers are pairwise distinct. *)
Record crawl_inv (ledger0 : list CrawlRecord) (max_pages : Z)
    (st : CrawlState) : Prop := {
  inv_count : page_count st = Z.of_nat (size (visited_urls st));
  inv_budget : (page_count st ≤ max_pages)%Z;
  inv_queue_nodup : NoDup (urls_to_visit st);
  inv_queue_fresh : ∀ u, u ∈ urls_to_visit st → u ∉ visited_urls st;
  inv_ledger :
    scraped_pages st = ledger0 ++ (record_of_document <$> documents st);
  inv_docs :
    Forall (λ d, md_source (metadata d) ∈ visited_urls st
                 ∧ (1 ≤ md_page_number (metadata d) ≤ page_count st)%Z
                 ∧ 300 < String.length (text d))
           (documents st);
  inv_sources : NoDup ((λ d, md_source (metadata d)) <$> documents st);
  inv_numbers : NoDup ((λ d, md_page_number (metadata d)) <$> documents st)
}.

(** [st'] is a later state of the same crawl as [st]: nothing visited,
    produced or logged is lost, and the page count does not decrease. *)
Record extends (st st' : CrawlState) : Prop := {
  ext_visited : visited_urls st ⊆ visited_urls st';
  ext_count : (page_count st ≤ page_count st')%Z;
  ext_documents : documents st `prefix_of` documents st';
  ext_ledger : scraped_pages st `prefix_of` scraped_pages st';
  ext_trace : trace st `prefix_of` trace st'
}.

(** ** Reading a trace *)

(** The URLs requested, in order. *)
Fixpoint fetched (tr : list Event) : list string :=
  match tr with
  | [] => []
  | EvGet url :: tr' => url :: fetched tr'
  | _ :: tr' => fetched tr'
  end.

(** The number of sleeps. *)
Fixpoint sleeps (tr : list Event) : nat :=
  match tr with
  | [] => 0
  | EvSleep :: tr' => S (sleeps tr')
  | _ :: tr' => sleeps tr'
  end.

(** The events of a crawl, as opposed to the calls to the engine. *)
Definition is_crawl_event (e : Event) : bool :=
  match e with
  | EvGet _ | EvSleep => true
  | _ => false
  end.

(** The two tests of the filter that bear on the resolved URL alone. *)
Definition in_scope (base_domain u : string) : Prop :=
  Py.startswith u base_domain = true
  ∧ Py.contains u langgraph_path_pattern = true.

(** [base_domain] as line 82 builds it. *)
Definition base_domain_of (parsed : ParseResult) : string :=
  scheme parsed +:+ "://" +:+ netloc parsed.

(** ** [urllib.parse] on plain URLs *)

Module Urllib.

Definition between (lo hi : nat) (c : ascii) : bool :=
  let n := nat_of_ascii c in Nat.leb lo n && Nat.leb n hi.

Definition is_alpha (c : ascii) : bool := between 65 90 c || between 97 122 c.

(** [scheme_chars]: letters, digits, [+], [-] and [.] *)
Definition is_scheme_char (c : ascii) : bool :=
  is_alpha c || between 48 57 c
  || Ascii.eqb c "+" || Ascii.eqb c "-" || Ascii.eqb c ".".

Definition lower (c : ascii) : ascii :=
  if between 65 90 c then ascii_of_nat (nat_of_ascii c + 32) else c.

Fixpoint all_chars (p : ascii → bool) (s : string) : bool :=
  match s with
  | EmptyString => true
  | String c s' => p c && all_chars p s'
  end.

Fixpoint map_chars (f : ascii → ascii) (s : string) : string :=
  match s with
  | EmptyString => EmptyString
  | String c s' => String (f c) (map_chars f s')
  end.

Fixpoint has_char (a : ascii) (s : string) : bool :=
  match s with
  | EmptyString => false
  | String c s' => Ascii.eqb c a || has_char a s'
  end.

(** [url.find(':')]: the text before the first colon and the text after
    it. *)
Fixpoint split_colon (s : string) : option (string * string) :=
  match s with
  | EmptyString => None
  | String c s' =>
      if Ascii.eqb c ":" then Some (EmptyString, s')
      else match split_colon s' with
           | Some (pre, post) => Some (String c pre, post)
           | None => None
           end
  end.

(** The network location: up to the first [/], [?] or [#]. *)
Fixpoint until_delimiter (s : string) : string :=
  match s with
  | EmptyString => EmptyString
  | String c s' =>
      if Ascii.eqb c "/" || Ascii.eqb c "?" || Ascii.eqb c "#"
      then EmptyString
      else String c (until_delimiter s')
  end.

(** [urlparse(url)] for a URL without whitespace or control characters:
    the scheme is the text before the first colon when it starts with a
    letter and holds scheme characters only; the network location
    follows [//]; unbalanced square brackets in it raise (a bracketed
    host is not examined further). *)
Definition urlparse (url : string) : result ParseResult :=
  let '(sch, rest) :=
    match split_colon url with
    | Some (String c pre, post) =>
        if is_alpha c && all_chars is_scheme_char (String c pre)
        then (map_chars lower (String c pre), post)
        else (EmptyString, url)
    | _ => (EmptyString, url)
    end in
  if String.prefix "//" rest then
    let loc := until_delimiter (String.substring 2 (String.length rest) rest) in
    if xorb (has_char "[" loc) (has_char "]" loc)
    then Raise "Invalid IPv6 URL"
    else Ok {| scheme := sch; netloc := loc |}
  else Ok {| scheme := sch; netloc := EmptyString |}.

(** [urljoin(base, href)] for an [href] that has its own scheme and
    network location: the [href] itself. *)
Definition urljoin_absolute (base href : string) : result string := Ok href.

End Urllib.

(** ** Scenarios *)

Module Scenario.

(** A text of [n] characters. *)
Fixpoint filler (n : nat) : string :=
  match n with
  | O => EmptyString
  | S n' => String "a" (filler n')
  end.

(** A page whose only candidate region is an [article] holding one text
    node [body] and one anchor per element of [links]. *)
Definition article_page (title : option (option string)) (body : string)
    (links : list string) : Page :=
  {| find_article :=
       Some {| text_strip := body; text_lines := body; hrefs := links |};
     find_main := None;
     find_div_class_content := None;
     find_div_role_main := None;
     find_div_class_markdown := None;
     find_div_id_content := None;
     find_div_class_docs_content := None;
     find_div_class_page_content := None;
     find_section_class_content := None;
     find_all_div := [];
     soup_title := title |}.

Fixpoint lookup_page (site : list (string * Page)) (url : string)
    : option Page :=
  match site with
  | [] => None
  | (u, p) :: site' => if String.eqb u url then Some p else lookup_page site' url
  end.

(** A site serving the listed pages; every other URL fails to load. All
    links of the scenarios are absolute. *)
Definition world (site : list (string * Page)) : World :=
  {| http_get := lookup_page site;
     urlparse := Urllib.urlparse;
     urljoin := Urllib.urljoin_absolute |}.

Definition base : string := "https://docs.langchain.com".
Definition overview : string :=
  "https://docs.langchain.com/oss/python/langgraph/overview".
Definition install : string :=
  "https://docs.langchain.com/oss/python/langgraph/install".
Definition quickstart : string :=
  "https://docs.langchain.com/oss/python/langgraph/quickstart".
Definition concepts : string :=
  "https://docs.langchain.com/oss/python/concepts".
Definition lookalike : string :=
  "https://docs.langchain.com.evil.example/langgraph/x".

(** The seed has an empty [<title></title>] and an article of 301
    characters. *)
Definition empty_title : World :=
  world [(overview, article_page (Some None) (filler 301) [])].

(** The seed has a short article that links to an in-scope page. *)
Definition stub_seed : World :=
  world [(overview, article_page (Some (Some "Overview")) "Coming soon."
                      [install]);
         (install, article_page (Some (Some "Install")) (filler 400) [])].

(** The seed links to two pages; the first of them fails to load. *)
Definition broken_link : World :=
  world [(overview, article_page (Some (Some "Overview")) (filler 400)
                      [install; quickstart]);
         (quickstart, article_page (Some (Some "Quickstart")) (filler 350) [])].

(** The seed links to a host whose name starts with the crawl's. *)
Definition offsite_link : World :=
  world [(overview, article_page (Some (Some "Overview")) (filler 400)
                      [lookalike]);
         (lookalike, article_page (Some (Some "Elsewhere")) (filler 400) [])].

(** The seed lies outside the section the links are kept to. *)
Definition unscoped_seed : World :=
  world [(concepts, article_page (Some (Some "Concepts | 🦜️🔗 LangChain"))
                      (filler 320) [overview]);
         (overview, article_page None (filler 400) [])].

(** An engine over the list of indexed Documents whose bulk build
    fails. *)
Definition failing_engine : Engine (list Document) unit :=
  {| from_documents := λ _, Raise "embedding service unavailable";
     insert := λ idx doc, (idx ++ [doc], None);
     run_query := λ _ _ _, Raise "no answer" |}.

(** An engine that returns the first [top_k] indexed Documents as
    passages, unscored. *)
Definition listing_engine : Engine (list Document) unit :=
  {| from_documents := λ docs, Ok docs;
     insert := λ idx doc, (idx ++ [doc], None);
     run_query := λ idx top_k question,
       Ok {| response_str := "See the sources.";
             source_nodes :=
               Some ((λ d, {| node_text := text d; node_score := None;
                              node_metadata := Some (metadata d) |})
                     <$> take (Z.to_nat top_k) idx) |} |}.

(** A store with a persisted index of two Documents. *)
Definition persisted_store : Store (list Document) :=
  {| from_vector_store :=
       Ok [document_of overview "Overview" (filler 400) 1;
           document_of install "Install" (filler 350) 2];
     collection_count := λ idx, Ok (Z.of_nat (length idx)) |}.

(** A store without a persisted index. *)
Definition empty_store : Store (list Document) :=
  {| from_vector_store := Raise "no index";
     collection_count := λ idx, Ok (Z.of_nat (length idx)) |}.

(** The seed links twice to one page, once to itself, to an anchor and to
    a page outside the section. *)
Definition repeated_links : World :=
  world [(overview, article_page (Some (Some "Overview")) (filler 400)
                      [install; "#top"; install; overview; concepts; quickstart]);
         (install, article_page (Some (Some "Install")) (filler 350) [overview]);
         (quickstart, article_page (Some (Some "Quickstart")) (filler 350) [])].

End Scenario.

(** * Properties *)

(** ** The string operations and the selection on small inputs *)

Example strip_both_ends :
  Py.strip (String Py.newline " a b  ") = "a b".
Proof. reflexivity. Qed.

Example sub_newlines_collapses_long_runs :
  Py.sub_newlines 0 ("a" +:+ Py.newlines 4 +:+ "b" +:+ Py.newlines 2 +:+ "c")
  = "a" +:+ Py.newlines 2 +:+ "b" +:+ Py.newlines 2 +:+ "c".
Proof. reflexivity. Qed.

Example replace_leftmost_first : Py.replace "aaa" "aa" "X" = "Xa".
Proof. reflexivity. Qed.

Example last_segment_of_url :
  Py.last_segment Scenario.overview = "overview".
Proof. reflexivity. Qed.

Example title_without_branding :
  page_title (Scenario.article_page (Some (Some "Overview | 🦜️🔗 LangChain")) "" [])
    Scenario.overview
  = Ok "Overview".
Proof. reflexivity. Qed.

Example title_from_url :
  page_title (Scenario.article_page None "" []) Scenario.overview
  = Ok "overview".
Proof. reflexivity. Qed.

(** The fallback keeps the first largest [div], from 500 characters on. *)
Example fallback_threshold :
  let div n links :=
    {| text_strip := Scenario.filler n; text_lines := Scenario.filler n;
       hrefs := links |} in
  let soup divs :=
    {| find_article := None; find_main := None;
       find_div_class_content := None; find_div_role_main := None;
       find_div_class_markdown := None; find_div_id_content := None;
       find_div_class_docs_content := None;
       find_div_class_page_content := None;
       find_section_class_content := None;
       find_all_div := divs; soup_title := None |} in
  select_main_content (soup [div 10 []; div 499 []; div 20 []]) = None
  ∧ select_main_content (soup [div 10 []; div 500 ["a"]; div 500 ["b"]])
    = Some (div 500 ["a"])
  ∧ select_main_content (soup []) = None.
Proof. split_and!; reflexivity. Qed.

(** ** The link filter *)

(** What an accepted link has passed. *)
Lemma should_follow_Followed w base_domain url visited queue href full_url :
  should_follow w base_domain url visited queue href = Followed full_url →
  urljoin w url href = Ok full_url
  ∧ Py.startswith href "#" = false
  ∧ Py.startswith full_url base_domain = true
  ∧ Py.contains full_url langgraph_path_pattern = true
  ∧ (full_url ∉ visited)
  ∧ (full_url ∉ queue).
Proof.
  unfold should_follow.
  destruct (Py.startswith href "#") eqn:Hanchor; simpl; [discriminate|].
  destruct (Py.startswith href "http" && negb (Py.startswith href base_domain));
    [discriminate|].
  destruct (urljoin w url href) as [u|msg]; [|discriminate].
  destruct (Py.startswith u base_domain) eqn:Hdom; simpl; [|discriminate].
  destruct (Py.contains u langgraph_path_pattern) eqn:Hpat; simpl; [|discriminate].
  destruct (bool_decide (u ∈ visited)) eqn:Hv; simpl; [discriminate|].
  destruct (bool_decide (u ∈ queue)) eqn:Hq; simpl; [discriminate|].
  intros [= <-].
  apply bool_decide_eq_false in Hv, Hq. done.
Qed.

(** The link loop only appends, keeps the queue free of duplicates, and
    what it appends has passed the filter. *)
Lemma discover_links_spec w base_domain url visited links :
  ∀ queue queue' r,
    discover_links w base_domain url visited links queue = (queue', r) →
    ∃ extra,
      queue' = queue ++ extra
      ∧ (NoDup queue → NoDup queue')
      ∧ ∀ u, u ∈ extra →
          (u ∉ visited) ∧ (u ∉ queue)
          ∧ Py.startswith u base_domain = true
          ∧ Py.contains u langgraph_path_pattern = true.
Proof.
  induction links as [|href links IH]; intros queue queue' r; simpl.
  - intros [= <- <-]. exists []. rewrite app_nil_r.
    split; [done|]. split; [done|]. intros u Hu. inversion Hu.
  - destruct (should_follow w base_domain url visited queue href)
      as [|full_url|msg] eqn:Hsf.
    + apply IH.
    + intros Hrec. apply should_follow_Followed in Hsf
        as (_ & _ & Hdom & Hpat & Hv & Hq).
      destruct (IH _ _ _ Hrec) as (extra & -> & Hnd & Hex).
      exists (full_url :: extra). split; [by rewrite <- app_assoc|].
      split.
      * intros Hq0. apply Hnd. apply NoDup_app. split; [done|]. split.
        -- intros x Hx Hx'. apply list_elem_of_singleton in Hx'. by subst.
        -- apply NoDup_singleton.
      * intros u Hu. apply elem_of_cons in Hu as [->|Hu]; [done|].
        destruct (Hex u Hu) as (? & Hnq & ? & ?).
        split; [done|]. split; [|done].
        intros Hin. apply Hnq. apply elem_of_app. by left.
    + intros [= <- <-]. exists []. rewrite app_nil_r.
      split; [done|]. split; [done|]. intros u Hu. inversion Hu.
Qed.

(** ** One visit *)

(** A visit changes neither the visited set nor the page count; it only
    appends to the queue, and only links that passed the filter; and it
    either leaves documents, ledger and queue alone, or appends one
    Document and one ledger entry, for a text of more than 300
    characters. *)
Lemma visit_page_spec w base_domain max_pages url st :
  let st' := visit_page w base_domain max_pages url st in
  visited_urls st' = visited_urls st
  ∧ page_count st' = page_count st
  ∧ (∃ extra,
        urls_to_visit st' = urls_to_visit st ++ extra
        ∧ (NoDup (urls_to_visit st) → NoDup (urls_to_visit st'))
        ∧ ∀ u, u ∈ extra →
            (u ∉ visited_urls st) ∧ (u ∉ urls_to_visit st)
            ∧ Py.startswith u base_domain = true
            ∧ Py.contains u langgraph_path_pattern = true)
  ∧ ((documents st' = documents st
      ∧ scraped_pages st' = scraped_pages st
      ∧ urls_to_visit st' = urls_to_visit st)
     ∨ (∃ soup main_content title,
          http_get w url = Some soup
          ∧ select_main_content soup = Some main_content
          ∧ 300 < String.length (extract_text main_content)
          ∧ page_title soup url = Ok title
          ∧ documents st' = documents st ++
              [document_of url title (extract_text main_content) (page_count st)]
          ∧ scraped_pages st' = scraped_pages st ++
              [record_of url title (extract_text main_content) (page_count st)])).
Proof.
  assert (Hnone : ∀ q : list string, ∃ extra : list string,
             q = q ++ extra ∧ (NoDup q → NoDup q)
             ∧ ∀ u, u ∈ extra →
                 (u ∉ visited_urls st) ∧ (u ∉ q)
                 ∧ Py.startswith u base_domain = true
                 ∧ Py.contains u langgraph_path_pattern = true).
  { intros q. exists []. rewrite app_nil_r. split; [done|]. split; [done|].
    intros u Hu. inversion Hu. }
  unfold visit_page.
  destruct (http_get w url) as [soup|] eqn:Hget; simpl;
    [|split_and!; auto].
  destruct (select_main_content soup) as [mc|] eqn:Hsel; simpl;
    [|split_and!; auto].
  destruct (Nat.ltb 300 (String.length (extract_text mc))) eqn:Hlen; simpl;
    [|split_and!; auto].
  apply Nat.ltb_lt in Hlen.
  destruct (page_title soup url) as [title|msg] eqn:Htitle; simpl;
    [|split_and!; auto].
  destruct (page_count st <? max_pages)%Z; simpl.
  - destruct (discover_links w base_domain url (visited_urls st) (hrefs mc)
                (urls_to_visit st)) as [q r] eqn:Hdl.
    pose proof (discover_links_spec _ _ _ _ _ _ _ _ Hdl) as Hspec.
    destruct r; simpl; (split_and!; [done|done|exact Hspec|]);
      right; exists soup, mc, title; done.
  - split_and!; [done|done|apply Hnone|].
    right; exists soup, mc, title; done.
Qed.

(** ** The loop invariant *)

Lemma init_state_inv ledger0 start_url max_pages :
  (0 ≤ max_pages)%Z → crawl_inv ledger0 max_pages (init_state ledger0 start_url).
Proof.
  intros Hm. constructor; cbn -[size].
  - by rewrite size_empty.
  - done.
  - apply NoDup_singleton.
  - intros u _. apply not_elem_of_empty.
  - by rewrite app_nil_r.
  - constructor.
  - constructor.
  - constructor.
Qed.

Lemma size_add_fresh (url : string) (V : gset string) :
  url ∉ V → size ({[url]} ∪ V) = S (size V).
Proof.
  intros Hfresh. rewrite size_union by (by apply disjoint_singleton_l).
  by rewrite size_singleton.
Qed.

(** Every iteration taken from a state of the invariant visits a page not
    visited before, and gives a state of the invariant. *)
Lemma loop_body_inv ledger0 w base_domain max_pages st :
  loop_guard max_pages st = true →
  crawl_inv ledger0 max_pages st →
  crawl_inv ledger0 max_pages (loop_body w base_domain max_pages st)
  ∧ page_count (loop_body w base_domain max_pages st) = (page_count st + 1)%Z.
Proof.
  unfold loop_guard, loop_body.
  destruct (urls_to_visit st) as [|url rest] eqn:Hq; [discriminate|].
  intros Hlt [Hc Hb Hnd Hfr Hl Hd Hs Hn]. apply Z.ltb_lt in Hlt.
  rewrite Hq in Hnd, Hfr.
  assert (Hfresh : url ∉ visited_urls st) by (apply Hfr; left).
  apply NoDup_cons in Hnd as [Hurl Hnd].
  simpl. rewrite bool_decide_eq_false_2 by done.
  set (st1 := mark_visited url (set_queue rest st)).
  destruct (visit_page_spec w base_domain max_pages url st1)
    as (Hv & Hpc & (extra & Hq' & Hnd' & Hex) & Hdocs).
  set (st' := visit_page w base_domain max_pages url st1) in *.
  simpl in Hv, Hpc, Hq', Hnd', Hex, Hdocs.
  assert (Hweak : Forall (λ d, md_source (metadata d) ∈ visited_urls st'
                     ∧ (1 ≤ md_page_number (metadata d) ≤ page_count st')%Z
                     ∧ 300 < String.length (text d)) (documents st)).
  { eapply Forall_impl; [exact Hd|]. simpl. intros d (Hin & Hnum & Hlen).
    rewrite Hv, Hpc. split; [apply elem_of_union; by right|].
    split; [lia|done]. }
  split; [|done].
  constructor.
  - rewrite Hpc, Hv, size_add_fresh by done. lia.
  - lia.
  - by apply Hnd'.
  - intros u Hu. rewrite Hv. rewrite Hq' in Hu.
    apply elem_of_app in Hu as [Hu|Hu].
    + assert (u ≠ url) by (intros ->; done).
      assert (u ∉ visited_urls st) by (apply Hfr; by right).
      intros [Heq%elem_of_singleton|Hin]%elem_of_union; done.
    + by destruct (Hex u Hu).
  - destruct Hdocs as [(Hd' & Hl' & _)|(soup & mc & title & _ & _ & _ & _ & Hd' & Hl')].
    + by rewrite Hd', Hl'.
    + rewrite Hd', Hl'. simpl. rewrite Hl, fmap_app, app_assoc. done.
  - destruct Hdocs as [(Hd' & _)|(soup & mc & title & _ & _ & Hlen & _ & Hd' & _)].
    + by rewrite Hd'.
    + rewrite Hd'. apply Forall_app. split; [done|].
      apply Forall_singleton. simpl. rewrite Hv, Hpc.
      split; [apply elem_of_union; left; by apply elem_of_singleton|].
      split; [lia|done].
  - destruct Hdocs as [(Hd' & _)|(soup & mc & title & _ & _ & _ & _ & Hd' & _)].
    + by rewrite Hd'.
    + rewrite Hd', fmap_app. apply NoDup_app. split; [done|]. split.
      * intros x Hx Hx'. simpl in Hx'. apply list_elem_of_singleton in Hx'.
        subst x. apply list_elem_of_fmap in Hx as (d & Heq & Hin).
        rewrite Forall_forall in Hd. destruct (Hd d Hin) as (Hvis & _).
        rewrite <- Heq in Hvis. done.
      * apply NoDup_singleton.
  - destruct Hdocs as [(Hd' & _)|(soup & mc & title & _ & _ & _ & _ & Hd' & _)].
    + by rewrite Hd'.
    + rewrite Hd', fmap_app. apply NoDup_app. split; [done|]. split.
      * intros x Hx Hx'. simpl in Hx'. apply list_elem_of_singleton in Hx'.
        subst x. apply list_elem_of_fmap in Hx as (d & Heq & Hin).
        rewrite Forall_forall in Hd. destruct (Hd d Hin) as (_ & Hnum & _).
        rewrite <- Heq in Hnum. lia.
      * apply NoDup_singleton.
Qed.

(** A visit logs the fetch, then at most the sleep. *)
Lemma visit_page_trace w base_domain max_pages url st :
  ∃ tl, trace (visit_page w base_domain max_pages url st)
        = trace st ++ EvGet url :: tl
        ∧ (tl = [] ∨ tl = [EvSleep]).
Proof.
  unfold visit_page.
  destruct (http_get w url) as [soup|]; simpl; [|by exists []; auto].
  destruct (select_main_content soup) as [mc|]; simpl;
    [|exists [EvSleep]; rewrite <- app_assoc; auto].
  destruct (Nat.ltb 300 (String.length (extract_text mc))); simpl;
    [|exists [EvSleep]; rewrite <- app_assoc; auto].
  destruct (page_title soup url) as [title|msg]; simpl; [|by exists []; auto].
  destruct (page_count st <? max_pages)%Z; simpl;
    [|exists [EvSleep]; rewrite <- app_assoc; auto].
  destruct (discover_links w base_domain url (visited_urls st) (hrefs mc)
              (urls_to_visit st)) as [q [msg|]]; simpl.
  - exists []; auto.
  - exists [EvSleep]; rewrite <- app_assoc; auto.
Qed.

#[local] Instance extends_preorder : PreOrder extends.
Proof.
  split.
  - intros st. by constructor.
  - intros st1 st2 st3 [] []. constructor; by etrans.
Qed.

Lemma visit_page_extends w base_domain max_pages url st :
  extends st (visit_page w base_domain max_pages url st).
Proof.
  destruct (visit_page_spec w base_domain max_pages url st)
    as (Hv & Hpc & _ & Hdocs).
  destruct (visit_page_trace w base_domain max_pages url st) as (tl & Htr & _).
  constructor.
  - by rewrite Hv.
  - by rewrite Hpc.
  - destruct Hdocs as [(-> & _)|(? & ? & ? & _ & _ & _ & _ & -> & _)];
      [done|by apply prefix_app_r].
  - destruct Hdocs as [(_ & -> & _)|(? & ? & ? & _ & _ & _ & _ & _ & ->)];
      [done|by apply prefix_app_r].
  - rewrite Htr. by apply prefix_app_r.
Qed.

Lemma loop_body_extends w base_domain max_pages st :
  extends st (loop_body w base_domain max_pages st).
Proof.
  unfold loop_body. destruct (urls_to_visit st) as [|url rest]; [done|].
  simpl. case_bool_decide.
  - by constructor.
  - etrans; [|apply visit_page_extends].
    constructor; simpl; try done; [apply union_subseteq_r|lia].
Qed.

Lemma crawl_loop_extends w base_domain max_pages fuel :
  ∀ st st', crawl_loop fuel w base_domain max_pages st = Some st' →
            extends st st'.
Proof.
  induction fuel as [|fuel IH]; intros st st'; simpl;
    destruct (loop_guard max_pages st); try discriminate;
    try (intros [= <-]; done).
  intros Hrun. etrans; [apply loop_body_extends|by apply IH].
Qed.

(** From a state of the invariant, as many iterations as the budget has
    pages left end the loop, in a state of the invariant. *)
Lemma crawl_loop_inv ledger0 w base_domain max_pages fuel :
  ∀ st,
    crawl_inv ledger0 max_pages st →
    (max_pages - page_count st ≤ Z.of_nat fuel)%Z →
    ∃ st', crawl_loop fuel w base_domain max_pages st = Some st'
           ∧ crawl_inv ledger0 max_pages st'
           ∧ loop_guard max_pages st' = false.
Proof.
  induction fuel as [|fuel IH]; intros st Hinv Hfuel; simpl;
    destruct (loop_guard max_pages st) eqn:Hguard; try (by exists st).
  - exfalso. unfold loop_guard in Hguard.
    destruct (urls_to_visit st); [discriminate|].
    apply Z.ltb_lt in Hguard. lia.
  - destruct (loop_body_inv ledger0 w base_domain max_pages st Hguard Hinv)
      as [Hinv' Hpc].
    apply IH; [done|lia].
Qed.

(** The loop's result does not depend on the fuel once it is enough. *)
Lemma crawl_loop_fuel w base_domain max_pages fuel :
  ∀ st st' fuel',
    crawl_loop fuel w base_domain max_pages st = Some st' →
    fuel ≤ fuel' →
    crawl_loop fuel' w base_domain max_pages st = Some st'.
Proof.
  induction fuel as [|fuel IH]; intros st st' fuel'; simpl;
    destruct (loop_guard max_pages st) eqn:Hguard; try discriminate.
  - intros [= <-] _. destruct fuel'; simpl; by rewrite Hguard.
  - intros Hrun Hle. destruct fuel' as [|fuel']; [lia|].
    simpl. rewrite Hguard. apply IH; [done|lia].
  - intros [= <-] _. destruct fuel'; simpl; by rewrite Hguard.
Qed.

(** ** [scrape_langchain_docs] returns *)

(** The crawl ends within its fuel: it raises exactly when [urlparse]
    does on the start URL, and otherwise returns a state in which the
    loop guard is false. *)
Lemma scrape_langchain_docs_returns w ledger start_url max_pages :
  match urlparse w start_url with
  | Raise msg =>
      scrape_langchain_docs w ledger start_url max_pages = Some (Raise msg)
  | Ok _ =>
      ∃ st, scrape_langchain_docs w ledger start_url max_pages = Some (Ok st)
            ∧ loop_guard max_pages st = false
            ∧ extends (init_state ledger start_url) st
  end.
Proof.
  unfold scrape_langchain_docs.
  destruct (urlparse w start_url) as [parsed|msg]; [|done].
  set (base_domain := scheme parsed +:+ "://" +:+ netloc parsed).
  destruct (Z_le_gt_dec 0 max_pages) as [Hpos|Hneg].
  - destruct (crawl_loop_inv ledger w base_domain max_pages
                (Z.to_nat max_pages) (init_state ledger start_url))
      as (st & Hrun & _ & Hguard).
    + by apply init_state_inv.
    + simpl. lia.
    + rewrite Hrun. exists st. split; [done|]. split; [done|].
      by eapply crawl_loop_extends.
  - exists (init_state ledger start_url).
    assert (Hg : loop_guard max_pages (init_state ledger start_url) = false).
    { cbn -[Z.ltb]. apply Z.ltb_ge. lia. }
    destruct (Z.to_nat max_pages); simpl; rewrite Hg; done.
Qed.

(** The state returned by a crawl with a budget satisfies the invariant. *)
Lemma scrape_langchain_docs_inv w ledger start_url max_pages st :
  (0 ≤ max_pages)%Z →
  scrape_langchain_docs w ledger start_url max_pages = Some (Ok st) →
  crawl_inv ledger max_pages st.
Proof.
  unfold scrape_langchain_docs. intros Hm.
  destruct (urlparse w start_url) as [parsed|msg]; [|discriminate].
  set (base_domain := scheme parsed +:+ "://" +:+ netloc parsed).
  destruct (crawl_loop_inv ledger w base_domain max_pages
              (Z.to_nat max_pages) (init_state ledger start_url))
    as (st' & Hrun & Hinv & _).
  - by apply init_state_inv.
  - simpl. lia.
  - rewrite Hrun. by intros [= <-].
Qed.

(** The sound half of the extraction threshold: whatever the crawl, every
    Document it returns is longer than 300 characters, and the ledger
    gained exactly one entry per Document. *)
Lemma documents_exceed_threshold w ledger start_url max_pages st :
  scrape_langchain_docs w ledger start_url max_pages = Some (Ok st) →
  Forall (λ d, 300 < String.length (text d)) (documents st)
  ∧ scraped_pages st = ledger ++ (record_of_document <$> documents st).
Proof.
  intros Hrun. destruct (Z_le_gt_dec 0 max_pages) as [Hpos|Hneg].
  - destruct (scrape_langchain_docs_inv _ _ _ _ _ Hpos Hrun)
      as [_ _ _ _ Hl Hd _ _].
    split; [|done]. eapply Forall_impl; [exact Hd|]. by intros d (_ & _ & ?).
  - revert Hrun. unfold scrape_langchain_docs.
    destruct (urlparse w start_url) as [parsed|msg]; [|discriminate].
    assert (Hg : loop_guard max_pages (init_state ledger start_url) = false).
    { cbn -[Z.ltb]. apply Z.ltb_ge. lia. }
    destruct (Z.to_nat max_pages); simpl; rewrite Hg; intros [= <-]; simpl;
      by rewrite app_nil_r.
Qed.

(** A page that loads, has a content region with more than 300 characters
    of text and a usable title gets its Document and its ledger entry. *)
Lemma visit_page_adds_document w base_domain max_pages url st soup main_content title :
  http_get w url = Some soup →
  select_main_content soup = Some main_content →
  300 < String.length (extract_text main_content) →
  page_title soup url = Ok title →
  documents (visit_page w base_domain max_pages url st)
  = documents st ++
      [document_of url title (extract_text main_content) (page_count st)]
  ∧ scraped_pages (visit_page w base_domain max_pages url st)
    = scraped_pages st ++
        [record_of url title (extract_text main_content) (page_count st)].
Proof.
  intros Hget Hsel Hlen Htitle. unfold visit_page.
  rewrite Hget. simpl. rewrite Hsel.
  apply Nat.ltb_lt in Hlen. rewrite Hlen, Htitle. simpl.
  destruct (page_count st <? max_pages)%Z; simpl; [|done].
  by destruct (discover_links w base_domain url (visited_urls st)
                 (hrefs main_content) (urls_to_visit st)) as [q [msg|]].
Qed.

(** When the title cannot be computed the visit ends at the exception:
    only the fetch has been logged. *)
Lemma visit_page_title_failure w base_domain max_pages url st soup main_content msg :
  http_get w url = Some soup →
  select_main_content soup = Some main_content →
  300 < String.length (extract_text main_content) →
  page_title soup url = Raise msg →
  visit_page w base_domain max_pages url st = log (EvGet url) st.
Proof.
  intros Hget Hsel Hlen Htitle. unfold visit_page.
  rewrite Hget. cbn [log]. rewrite Hsel.
  apply Nat.ltb_lt in Hlen. by rewrite Hlen, Htitle.
Qed.

(** A visit appends a Document exactly when the page loads, a content
    region is selected, its normalized text is longer than 300 characters
    and the title can be computed. *)
Lemma visit_page_document_iff w base_domain max_pages url st :
  length (documents (visit_page w base_domain max_pages url st))
  = S (length (documents st))
  ↔ ∃ soup main_content title,
      http_get w url = Some soup
      ∧ select_main_content soup = Some main_content
      ∧ 300 < String.length (extract_text main_content)
      ∧ page_title soup url = Ok title.
Proof.
  split.
  - intros Hlen.
    destruct (visit_page_spec w base_domain max_pages url st)
      as (_ & _ & _ & [(Hd & _)|(soup & mc & title & ? & ? & ? & ? & _)]).
    + rewrite Hd in Hlen. lia.
    + by exists soup, mc, title.
  - intros (soup & mc & title & Hget & Hsel & Hlen & Htitle).
    destruct (visit_page_adds_document w base_domain max_pages url st
                soup mc title Hget Hsel Hlen Htitle) as [-> _].
    rewrite length_app. simpl. lia.
Qed.

(** The outcomes after which the visit sleeps: no content region, a text
    of at most 300 characters, and a Document produced with the link loop
    run to its end (or not run, the budget being reached). *)
Lemma visit_page_sleeps w base_domain max_pages url st soup :
  http_get w url = Some soup →
  match select_main_content soup with
  | None => True
  | Some main_content =>
      String.length (extract_text main_content) ≤ 300
      ∨ (∃ title, page_title soup url = Ok title)
        ∧ ((page_count st <? max_pages)%Z = true →
           (discover_links w base_domain url (visited_urls st)
              (hrefs main_content) (urls_to_visit st)).2 = None)
  end →
  trace (visit_page w base_domain max_pages url st)
  = trace st ++ [EvGet url; EvSleep].
Proof.
  intros Hget. unfold visit_page. rewrite Hget. cbn [log trace].
  destruct (select_main_content soup) as [mc|]; simpl;
    [|by rewrite <- app_assoc].
  destruct (Nat.ltb 300 (String.length (extract_text mc))) eqn:Hlen; simpl.
  - apply Nat.ltb_lt in Hlen.
    intros [Hshort|((title & ->) & Hlinks)]; [lia|]. simpl.
    destruct (page_count st <? max_pages)%Z; simpl;
      [|by rewrite <- app_assoc].
    destruct (discover_links w base_domain url (visited_urls st) (hrefs mc)
                (urls_to_visit st)) as [q r].
    simpl in Hlinks. rewrite (Hlinks eq_refl). simpl.
    by rewrite <- app_assoc.
  - intros _. by rewrite <- app_assoc.
Qed.

(** ** The claims *)

(** C1 (the code departs from it). The claim: a fetched page yields a
    Document if and only if the normalized text of its content region is
    longer than 300 characters. Here the seed has an article of 301
    characters and an empty title tag: [page_title] raises, the exception
    is swallowed by the loop's [except], and the crawl ends with the page
    counted but with no Document and no ledger entry. The other direction
    holds ([documents_exceed_threshold]). *)
Theorem empty_title_page_yields_no_document :
  ∃ soup region st,
    http_get Scenario.empty_title Scenario.overview = Some soup
    ∧ select_main_content soup = Some region
    ∧ String.length (extract_text region) = 301
    ∧ page_title soup Scenario.overview
      = Raise "'NoneType' object has no attribute 'replace'"
    ∧ scrape_langchain_docs Scenario.empty_title [] Scenario.overview 1
      = Some (Ok st)
    ∧ page_count st = 1%Z
    ∧ documents st = []
    ∧ scraped_pages st = [].
Proof.
  do 3 eexists. split_and!; [vm_compute; reflexivity ..| | |]; reflexivity.
Qed.

(** C2, as the claim states it, fails: the stub seed has a content region
    of 12 characters whose one link passes the filter at the time of the
    visit, yet the visit leaves the queue empty and the crawl ends without
    ever fetching the linked page. *)
Lemma stub_page_links_not_discovered :
  let st := mark_visited Scenario.overview
              (set_queue [] (init_state [] Scenario.overview)) in
  ∃ soup region final,
    http_get Scenario.stub_seed Scenario.overview = Some soup
    ∧ select_main_content soup = Some region
    ∧ String.length (extract_text region) = 12
    ∧ hrefs region = [Scenario.install]
    ∧ should_follow Scenario.stub_seed Scenario.base Scenario.overview
        (visited_urls st) (urls_to_visit st) Scenario.install
      = Followed Scenario.install
    ∧ urls_to_visit
        (visit_page Scenario.stub_seed Scenario.base 5 Scenario.overview st)
      = []
    ∧ scrape_langchain_docs Scenario.stub_seed [] Scenario.overview 5
      = Some (Ok final)
    ∧ page_count final = 1%Z
    ∧ trace final = [EvGet Scenario.overview; EvSleep].
Proof.
  do 3 eexists. split_and!; [vm_compute; reflexivity ..| |]; reflexivity.
Qed.

(** C2 (amended). An iteration that dequeues an unvisited URL counts it
    against the budget and marks it visited. If the page has a content
    region whose normalized text has at most 300 characters, the queue is
    left as the dequeue left it, and documents and ledger are unchanged: no
    link of the region is discovered. Whenever an iteration does add to the
    queue, it has also appended a Document longer than 300 characters. *)
Theorem short_page_counted_without_links w base_domain max_pages st url rest :
  urls_to_visit st = url :: rest →
  url ∉ visited_urls st →
  let st' := loop_body w base_domain max_pages st in
  (page_count st' = (page_count st + 1)%Z ∧ url ∈ visited_urls st')
  ∧ (∀ soup main_content,
       http_get w url = Some soup →
       select_main_content soup = Some main_content →
       String.length (extract_text main_content) ≤ 300 →
       urls_to_visit st' = rest
       ∧ documents st' = documents st
       ∧ scraped_pages st' = scraped_pages st)
  ∧ (urls_to_visit st' ≠ rest →
     ∃ d, documents st' = documents st ++ [d]
          ∧ 300 < String.length (text d)).
Proof.
  intros Hq Hfresh. unfold loop_body. rewrite Hq. simpl.
  rewrite bool_decide_eq_false_2 by done.
  set (st1 := mark_visited url (set_queue rest st)).
  destruct (visit_page_spec w base_domain max_pages url st1)
    as (Hv & Hpc & _ & Hdocs).
  simpl in Hv, Hpc, Hdocs. split_and!.
  - by rewrite Hpc.
  - rewrite Hv. apply elem_of_union. left. by apply elem_of_singleton.
  - intros soup mc Hget Hsel Hlen.
    destruct Hdocs as [(? & ? & ?)|(soup' & mc' & t & Hget' & Hsel' & Hlen' & _)];
      [done|].
    rewrite Hget in Hget'. injection Hget' as <-.
    rewrite Hsel in Hsel'. injection Hsel' as <-. lia.
  - intros Hne.
    destruct Hdocs as [(_ & _ & ?)|(soup & mc & t & _ & _ & Hlen & _ & Hd & _)];
      [done|].
    eexists. split; [exact Hd|done].
Qed.

Lemma short_page_counted_without_links_witness :
  let st := init_state [] Scenario.overview in
  let st' := loop_body Scenario.stub_seed Scenario.base 5 st in
  page_count st' = 1%Z
  ∧ urls_to_visit st' = []
  ∧ documents st' = [].
Proof.
  intros st st'.
  destruct (short_page_counted_without_links Scenario.stub_seed Scenario.base
              5 st Scenario.overview [])
    as ((Hpc & _) & Hshort & _).
  - reflexivity.
  - apply not_elem_of_empty.
  - destruct (Hshort
                (Scenario.article_page (Some (Some "Overview")) "Coming soon."
                   [Scenario.install])
                {| text_strip := "Coming soon."; text_lines := "Coming soon.";
                   hrefs := [Scenario.install] |})
      as (Hq & Hd & _).
    + reflexivity.
    + reflexivity.
    + vm_compute. lia.
    + split; [exact Hpc|]. split; [exact Hq|exact Hd].
Defined.

(** The checks of the filter that hold as stated: a link whose resolved
    URL lacks the path marker, is already visited or is already queued is
    not followed; nor is one whose resolved URL does not start with the
    text of the base domain. *)
Lemma should_follow_rejects w base_domain url visited queue href full_url :
  urljoin w url href = Ok full_url →
  Py.startswith full_url base_domain = false
  ∨ Py.contains full_url langgraph_path_pattern = false
  ∨ full_url ∈ visited
  ∨ full_url ∈ queue →
  should_follow w base_domain url visited queue href = Skipped.
Proof.
  intros Hjoin Hbad.
  destruct (should_follow w base_domain url visited queue href)
    as [|u|msg] eqn:Hsf; [done| |].
  - apply should_follow_Followed in Hsf as (Hjoin' & _ & Hdom & Hpat & Hv & Hq).
    rewrite Hjoin in Hjoin'. injection Hjoin' as <-.
    destruct Hbad as [?|[?|[?|?]]]; congruence || done.
  - exfalso. revert Hsf. unfold should_follow. rewrite Hjoin.
    destruct (_ || _); [discriminate|]. by destruct (_ && _).
Qed.

(** C3 (the code departs from it). The claim: the filter is false for any
    link that resolves to another origin than the crawl's base domain. The
    filter compares text, not origins: the seed's origin is
    [https://docs.langchain.com], the link resolves to the host
    [docs.langchain.com.evil.example], whose URL starts with the same
    characters, and the link is followed; the crawl fetches that host and
    ingests its page. *)
Theorem lookalike_host_is_followed :
  urlparse Scenario.offsite_link Scenario.overview
  = Ok {| scheme := "https"; netloc := "docs.langchain.com" |}
  ∧ urlparse Scenario.offsite_link Scenario.lookalike
    = Ok {| scheme := "https"; netloc := "docs.langchain.com.evil.example" |}
  ∧ should_follow Scenario.offsite_link Scenario.base Scenario.overview
      {[Scenario.overview]} [] Scenario.lookalike
    = Followed Scenario.lookalike
  ∧ ∃ st,
      scrape_langchain_docs Scenario.offsite_link [] Scenario.overview 5
      = Some (Ok st)
      ∧ trace st = [EvGet Scenario.overview; EvSleep;
                    EvGet Scenario.lookalike; EvSleep]
      ∧ pg_url <$> scraped_pages st
        = [Scenario.overview; Scenario.lookalike].
Proof.
  split_and!; [vm_compute; reflexivity ..|].
  eexists. split_and!; [vm_compute; reflexivity| |]; reflexivity.
Qed.

(** C4. For a crawl with [max_pages ≥ 1]: the crawl returns (or raises
    where [urlparse] does on the start URL, before the loop); at loop exit
    the visited set has at most [max_pages] URLs; the ledger is the one
    the crawl found followed by the entries it appended, among which no
    URL and no page number occurs twice. [ingest_documents] starts the
    crawl on the empty ledger, so there this is the whole ledger. *)
Theorem crawl_bounded_and_ledger_unique w ledger start_url max_pages :
  (1 ≤ max_pages)%Z →
  match scrape_langchain_docs w ledger start_url max_pages with
  | Some (Ok st) =>
      (Z.of_nat (size (visited_urls st)) ≤ max_pages)%Z
      ∧ ∃ new, scraped_pages st = ledger ++ new
               ∧ NoDup (pg_url <$> new)
               ∧ NoDup (pg_page_number <$> new)
  | Some (Raise msg) => urlparse w start_url = Raise msg
  | None => False
  end.
Proof.
  intros Hm.
  pose proof (scrape_langchain_docs_returns w ledger start_url max_pages) as Hret.
  destruct (urlparse w start_url) as [parsed|msg] eqn:Hparse.
  - destruct Hret as (st & Hrun & _). rewrite Hrun.
    destruct (scrape_langchain_docs_inv w ledger start_url max_pages st)
      as [Hc Hb _ _ Hl _ Hs Hn]; [lia|done|].
    split; [lia|].
    exists (record_of_document <$> documents st).
    split; [done|]. rewrite <- !list_fmap_compose. done.
  - by rewrite Hret.
Qed.

Lemma crawl_bounded_and_ledger_unique_witness :
  (1 ≤ 5)%Z
  ∧ match scrape_langchain_docs Scenario.broken_link [] Scenario.overview 5 with
    | Some (Ok st) =>
        (Z.of_nat (size (visited_urls st)) ≤ 5)%Z
        ∧ ∃ new, scraped_pages st = [] ++ new
                 ∧ NoDup (pg_url <$> new)
                 ∧ NoDup (pg_page_number <$> new)
    | Some (Raise msg) => urlparse Scenario.broken_link Scenario.overview = Raise msg
    | None => False
    end.
Proof.
  split; [lia|].
  apply (crawl_bounded_and_ledger_unique Scenario.broken_link []
           Scenario.overview 5).
  lia.
Defined.

(** A fetch that fails is followed by no sleep. *)
Lemma visit_page_fetch_failure w base_domain max_pages url st :
  http_get w url = None →
  visit_page w base_domain max_pages url st = log (EvGet url) st.
Proof. intros Hget. unfold visit_page. by rewrite Hget. Qed.

(** C5 (the code departs from it). The claim: the delay follows every
    fetch, also a failed one. The sleep is the last statement of the
    [try]; the [except] goes on to the next URL without it. Here the
    second page fails to load and the third is requested right after
    it. *)
Theorem failed_fetch_skips_delay :
  ∃ st,
    scrape_langchain_docs Scenario.broken_link [] Scenario.overview 5
    = Some (Ok st)
    ∧ http_get Scenario.broken_link Scenario.install = None
    ∧ trace st = [EvGet Scenario.overview; EvSleep;
                  EvGet Scenario.install;
                  EvGet Scenario.quickstart; EvSleep].
Proof.
  eexists. split_and!; [vm_compute; reflexivity| |]; reflexivity.
Qed.

(** ** Ingestion and query *)

(** [ingest_documents] returns on every input. *)
Lemma ingest_documents_returns {Index Score : Type} (w : World)
    (eng : Engine Index Score) (self : RAGService Index) docs url max_pages :
  ∃ self' r tr,
    ingest_documents w eng self docs url max_pages = Some (self', r, tr).
Proof.
  unfold ingest_documents.
  assert (Hgather : ∃ g, gather w docs url max_pages = Some g).
  { unfold gather. destruct url as [u|]; [|by eexists].
    destruct (truthy_str (Some u) && negb (truthy_list docs)); [|by eexists].
    pose proof (scrape_langchain_docs_returns w [] u max_pages) as Hret.
    destruct (urlparse w u) as [parsed|msg].
    - destruct Hret as (st & -> & _). by eexists.
    - rewrite Hret. by eexists. }
  destruct Hgather as [[[[docs' ledger] tr]|msg] ->]; [|by do 3 eexists].
  cbn [self_index].
  destruct (negb (truthy_list docs')); [by do 3 eexists|].
  destruct (index_documents eng (self_index self) (default [] docs'))
    as [[idx [msg|]] tr']; by do 3 eexists.
Qed.


(** The ledger after a call: the entries of the Documents crawled by the
    call, one each, and nothing when the call did not crawl. *)
Lemma ingest_documents_ledger {Index Score : Type} (w : World)
    (eng : Engine Index Score) (self self' : RAGService Index)
    docs url max_pages r tr :
  ingest_documents w eng self docs url max_pages = Some (self', r, tr) →
  self_scraped_pages self'
  = (if truthy_str url && negb (truthy_list docs) then
       match scrape_langchain_docs w [] (default "" url) max_pages with
       | Some (Ok st) => record_of_document <$> documents st
       | _ => []
       end
     else []).
Proof.
  unfold ingest_documents, gather.
  assert (Hindex : ∀ docs0 ledger tr0,
    match index_documents eng (self_index self) docs0 with
    | (index', Some msg, tr') =>
        Some ({| self_index := index'; self_scraped_pages := ledger |},
              ingest_error msg ledger, tr0 ++ tr')
    | (index', None, tr') =>
        Some ({| self_index := index'; self_scraped_pages := ledger |},
              {| i_status := success;
                 i_message := "Successfully ingested "
                              +:+ pretty (length docs0) +:+ " documents";
                 i_document_count := Some (length docs0);
                 i_pages_scraped := ledger;
                 i_total_characters := Some (total_characters docs0) |},
              tr0 ++ tr')
    end = Some (self', r, tr) →
    self_scraped_pages self' = ledger).
  { intros docs0 ledger tr0.
    destruct (index_documents eng (self_index self) docs0)
      as [[idx [msg|]] tr']; intros ?; by simplify_eq. }
  destruct url as [u|].
  - change (default "" (Some u)) with u.
    destruct (truthy_str (Some u) && negb (truthy_list docs)) eqn:Hcrawl.
    + destruct (scrape_langchain_docs w [] u max_pages) as [[st|msg]|] eqn:Hrun;
        [| by intros ?; simplify_eq | discriminate].
      destruct (documents_exceed_threshold _ _ _ _ _ Hrun) as [_ Hl].
      simpl in Hl. rewrite Hl. cbn [self_index].
      destruct (negb (truthy_list (Some (documents st))));
        [by intros ?; simplify_eq|apply Hindex].
    + cbn [self_index].
      destruct (negb (truthy_list docs));
        [by intros ?; simplify_eq|apply Hindex].
  - cbn [truthy_str andb self_index].
    destruct (negb (truthy_list docs));
      [by intros ?; simplify_eq|apply Hindex].
Qed.

(** C6. The first statement of [ingest_documents] resets the ledger, and
    nothing in the call reads what it held: a call on a service gives the
    same service, dictionary and outside calls whatever ledger the service
    came with. So after two calls in sequence the ledger is made of the
    entries of the Documents that the second call crawled, one each, and
    is empty when the second call did not crawl. *)
Theorem ingest_resets_ledger {Index Score : Type}
    (w1 w2 : World) (eng1 eng2 : Engine Index Score)
    (self0 self1 self2 : RAGService Index)
    docs1 url1 max_pages1 docs2 url2 max_pages2 r1 r2 tr1 tr2 :
  ingest_documents w1 eng1 self0 docs1 url1 max_pages1 = Some (self1, r1, tr1) →
  ingest_documents w2 eng2 self1 docs2 url2 max_pages2 = Some (self2, r2, tr2) →
  (∀ ledger,
     ingest_documents w2 eng2
       {| self_index := self_index self1; self_scraped_pages := ledger |}
       docs2 url2 max_pages2
     = Some (self2, r2, tr2))
  ∧ self_scraped_pages self2
    = (if truthy_str url2 && negb (truthy_list docs2) then
         match scrape_langchain_docs w2 [] (default "" url2) max_pages2 with
         | Some (Ok st) => record_of_document <$> documents st
         | _ => []
         end
       else []).
Proof.
  intros _ Hcall. split; [intros ledger; exact Hcall|].
  by eapply ingest_documents_ledger.
Qed.

Lemma ingest_resets_ledger_witness :
  let fresh : RAGService (list Document) :=
    {| self_index := None; self_scraped_pages := [] |} in
  ∃ self1 self2,
    ingest_documents Scenario.broken_link Scenario.listing_engine fresh
      None (Some Scenario.overview) 5 = Some self1
    ∧ ingest_documents Scenario.unscoped_seed Scenario.listing_engine
        self1.1.1 None (Some Scenario.concepts) 1 = Some self2
    ∧ pg_url <$> self_scraped_pages self1.1.1
      = [Scenario.overview; Scenario.quickstart]
    ∧ pg_url <$> self_scraped_pages self2.1.1 = [Scenario.concepts].
Proof.
  intros fresh.
  destruct (ingest_documents Scenario.broken_link Scenario.listing_engine fresh
              None (Some Scenario.overview) 5) as [[[s1 r1] t1]|] eqn:H1;
    [|vm_compute in H1; discriminate].
  destruct (ingest_documents Scenario.unscoped_seed Scenario.listing_engine
              s1 None (Some Scenario.concepts) 1) as [[[s2 r2] t2]|] eqn:H2.
  - exists (s1, r1, t1), (s2, r2, t2).
    split; [reflexivity|]. split; [exact H2|].
    destruct (ingest_resets_ledger _ _ _ _ _ _ _ _ _ _ _ _ _ _ _ _ _ H1 H2)
      as [_ Hledger].
    simpl. rewrite Hledger.
    vm_compute in H1. injection H1 as <- _ _.
    split; vm_compute; reflexivity.
  - exfalso. vm_compute in H1. injection H1 as <- _ _.
    vm_compute in H2. discriminate.
Defined.

(** The documents of a crawl have pairwise distinct sources and page
    numbers, whatever the budget. *)
Lemma scrape_documents_unique w ledger start_url max_pages st :
  scrape_langchain_docs w ledger start_url max_pages = Some (Ok st) →
  NoDup ((λ d, md_source (metadata d)) <$> documents st)
  ∧ NoDup ((λ d, md_page_number (metadata d)) <$> documents st).
Proof.
  intros Hrun. destruct (Z_le_gt_dec 0 max_pages) as [Hpos|Hneg].
  - by destruct (scrape_langchain_docs_inv _ _ _ _ _ Hpos Hrun)
      as [_ _ _ _ _ _ Hs Hn].
  - revert Hrun. unfold scrape_langchain_docs.
    destruct (urlparse w start_url) as [parsed|msg]; [|discriminate].
    assert (Hg : loop_guard max_pages (init_state ledger start_url) = false).
    { cbn -[Z.ltb]. apply Z.ltb_ge. lia. }
    destruct (Z.to_nat max_pages); simpl; rewrite Hg; intros [= <-]; simpl;
      split; constructor.
Qed.

(** After every call of [ingest_documents] the ledger of the service holds
    no URL and no page number twice. *)
Lemma ingest_ledger_unique {Index Score : Type} (w : World)
    (eng : Engine Index Score) (self self' : RAGService Index)
    docs url max_pages r tr :
  ingest_documents w eng self docs url max_pages = Some (self', r, tr) →
  NoDup (pg_url <$> self_scraped_pages self')
  ∧ NoDup (pg_page_number <$> self_scraped_pages self').
Proof.
  intros Hcall. rewrite (ingest_documents_ledger _ _ _ _ _ _ _ _ _ Hcall).
  destruct (truthy_str url && negb (truthy_list docs));
    [|split; constructor].
  destruct (scrape_langchain_docs w [] (default "" url) max_pages)
    as [[st|msg]|] eqn:Hrun; [|split; constructor ..].
  rewrite <- !list_fmap_compose.
  by apply (scrape_documents_unique _ _ _ _ _ Hrun).
Qed.

(** C7. Without an index, [query] returns the error dictionary with no
    sources, whatever the question, [top_k] and the engine; it makes no
    call to the engine, and being a function into dictionaries it lets no
    exception out. *)
Theorem query_without_index {Index Score : Type} (eng : Engine Index Score)
    (ledger : list CrawlRecord) (question : string) (top_k : Z) :
  query eng {| self_index := None; self_scraped_pages := ledger |}
    question top_k
  = ({| q_status := error;
        q_answer :=
          "No documents have been ingested yet. Please ingest documents first.";
        q_sources := [] |},
     []).
Proof. reflexivity. Qed.

Lemma length_append (a b : string) :
  String.length (a +:+ b) = String.length a + String.length b.
Proof. induction a as [|c a IH]; simpl; [done|by rewrite IH]. Qed.

Lemma length_slice_to (n : nat) (s : string) :
  String.length (Py.slice_to n s) = Nat.min n (String.length s).
Proof.
  unfold Py.slice_to. revert s.
  induction n as [|n IH]; intros [|c s]; simpl; try done.
  by rewrite IH.
Qed.

(** Line 309, case by case. *)
Lemma source_text_spec (t : string) :
  (String.length t ≤ 300 → source_text t = t)
  ∧ (300 < String.length t →
     source_text t = Py.slice_to 300 t +:+ "..."
     ∧ String.length (Py.slice_to 300 t) = 300)
  ∧ String.length (source_text t) ≤ 303.
Proof.
  unfold source_text.
  destruct (Nat.ltb 300 (String.length t)) eqn:Hlen.
  - apply Nat.ltb_lt in Hlen. split_and!.
    + intros Hle. exfalso. lia.
    + intros _. split; [done|]. rewrite length_slice_to. lia.
    + rewrite length_append, length_slice_to.
      change (String.length "...") with 3. lia.
  - apply Nat.ltb_ge in Hlen. split_and!; [done|intros Hlt; exfalso; lia|lia].
Qed.

(** C8. A query on a service that has an index, to an engine that returns
    at most [top_k] passages for [similarity_top_k=top_k], with
    [top_k ≥ 0]: the sources are at most [top_k]; there is one per passage
    returned, in order, whose text is the passage's when that has at most
    300 characters and otherwise its first 300 characters followed by
    three dots; so no source text is longer than 303 characters. *)
Theorem query_sources_bounded {Index Score : Type} (eng : Engine Index Score)
    (self : RAGService Index) (question : string) (top_k : Z) (idx : Index) :
  self_index self = Some idx →
  (∀ response nodes,
     run_query eng idx top_k question = Ok response →
     source_nodes response = Some nodes →
     (Z.of_nat (length nodes) ≤ top_k)%Z) →
  (0 ≤ top_k)%Z →
  let sources := q_sources (query eng self question top_k).1 in
  (Z.of_nat (length sources) ≤ top_k)%Z
  ∧ Forall (λ s, String.length (src_text s) ≤ 303) sources
  ∧ ∀ response nodes,
      run_query eng idx top_k question = Ok response →
      source_nodes response = Some nodes →
      Forall2
        (λ node s,
           (String.length (node_text node) ≤ 300 →
            src_text s = node_text node)
           ∧ (300 < String.length (node_text node) →
              src_text s = Py.slice_to 300 (node_text node) +:+ "..."
              ∧ String.length (Py.slice_to 300 (node_text node)) = 300))
        nodes sources.
Proof.
  intros Hidx Hengine Htop. unfold query. rewrite Hidx.
  destruct (run_query eng idx top_k question) as [response|msg] eqn:Hq; simpl.
  - destruct (source_nodes response) as [nodes|] eqn:Hnodes.
    + split_and!.
      * rewrite length_map. by eapply Hengine.
      * apply Forall_fmap, Forall_forall. intros node _. simpl.
        apply source_text_spec.
      * intros response' nodes' [= <-]. rewrite Hnodes. intros [= <-].
        apply Forall2_fmap_r, Forall_Forall2_diag, Forall_forall.
        intros node _. simpl.
        destruct (source_text_spec (node_text node)) as (? & ? & _). done.
    + split_and!; [simpl; lia|constructor|].
      intros response' nodes' [= <-]. rewrite Hnodes. discriminate.
  - split_and!; [lia|constructor|discriminate].
Qed.

Lemma query_sources_bounded_witness :
  let docs := [document_of Scenario.overview "Overview" (Scenario.filler 400) 1;
               document_of Scenario.install "Install" (Scenario.filler 40) 2;
               document_of Scenario.quickstart "Quickstart" (Scenario.filler 301) 3;
               document_of Scenario.concepts "Concepts" (Scenario.filler 300) 4] in
  let self := {| self_index := Some docs; self_scraped_pages := [] |} in
  let sources :=
    q_sources (query Scenario.listing_engine self "What is X?" 3).1 in
  (Z.of_nat (length sources) ≤ 3)%Z
  ∧ Forall (λ s, String.length (src_text s) ≤ 303) sources.
Proof.
  intros docs self sources.
  destruct (query_sources_bounded Scenario.listing_engine self "What is X?" 3
              docs) as (Hn & Hlen & _).
  - reflexivity.
  - intros response nodes [= <-] [= <-]. vm_compute. discriminate.
  - lia.
  - split; [exact Hn|exact Hlen].
Defined.

(** C9. When the engine raises while the documents gathered by the call
    are indexed (in the bulk build, or in one of the inserts), the call
    returns the error dictionary with the engine's message, and its
    [pages_scraped] is the ledger as the crawl left it: every entry was
    appended before the first engine call, which the trace shows after the
    crawl's events. The service keeps the same ledger. *)
Theorem ingest_engine_failure_keeps_ledger {Index Score : Type}
    (w : World) (eng : Engine Index Score) (self : RAGService Index)
    docs url max_pages docs' ledger tr index' msg tr' :
  gather w docs url max_pages = Some (Ok (docs', ledger, tr)) →
  truthy_list docs' = true →
  index_documents eng (self_index self) (default [] docs')
  = (index', Some msg, tr') →
  ingest_documents w eng self docs url max_pages
  = Some ({| self_index := index'; self_scraped_pages := ledger |},
          {| i_status := error;
             i_message := "Error during ingestion: " +:+ msg;
             i_document_count := None;
             i_pages_scraped := ledger;
             i_total_characters := None |},
          tr ++ tr').
Proof.
  intros Hgather Hdocs Hindex. unfold ingest_documents.
  rewrite Hgather, Hdocs. cbn [negb self_index]. by rewrite Hindex.
Qed.

Lemma ingest_engine_failure_keeps_ledger_witness :
  ∃ self' r tr,
    ingest_documents Scenario.unscoped_seed Scenario.failing_engine
      {| self_index := None; self_scraped_pages := [] |}
      None (Some Scenario.concepts) 5
    = Some (self', r, tr)
    ∧ i_status r = error
    ∧ pg_url <$> i_pages_scraped r = [Scenario.concepts; Scenario.overview]
    ∧ pg_page_number <$> i_pages_scraped r = [1%Z; 2%Z].
Proof.
  do 3 eexists. split.
  - eapply (ingest_engine_failure_keeps_ledger Scenario.unscoped_seed
              Scenario.failing_engine).
    + vm_compute. reflexivity.
    + reflexivity.
    + reflexivity.
  - split; [reflexivity|]. split; reflexivity.
Defined.

(** ** The seed *)

(** C10. With [max_pages ≥ 1] and a start URL that [urlparse] accepts, the
    crawl returns a state in which the start URL is visited and counted,
    its fetch is the first event, and, when its page has a content region
    with more than 300 characters of text and a usable title, the first
    Document is that page's, numbered 1. Nothing is asked of the start URL:
    neither the path marker nor the base domain is tested on it. *)
Theorem seed_visited_unfiltered w ledger start_url max_pages parsed :
  (1 ≤ max_pages)%Z →
  urlparse w start_url = Ok parsed →
  ∃ st,
    scrape_langchain_docs w ledger start_url max_pages = Some (Ok st)
    ∧ start_url ∈ visited_urls st
    ∧ (1 ≤ page_count st)%Z
    ∧ (∃ tl, trace st = EvGet start_url :: tl)
    ∧ ∀ soup main_content title,
        http_get w start_url = Some soup →
        select_main_content soup = Some main_content →
        300 < String.length (extract_text main_content) →
        page_title soup start_url = Ok title →
        ∃ more,
          documents st
          = document_of start_url title (extract_text main_content) 1 :: more.
Proof.
  intros Hm Hparse.
  pose proof (scrape_langchain_docs_returns w ledger start_url max_pages) as Hret.
  rewrite Hparse in Hret. destruct Hret as (st & Hrun & _).
  exists st. split; [done|].
  revert Hrun. unfold scrape_langchain_docs. rewrite Hparse.
  set (base_domain := scheme parsed +:+ "://" +:+ netloc parsed).
  destruct (Z.to_nat max_pages) as [|fuel] eqn:Hfuel; [lia|].
  cbn [crawl_loop].
  assert (Hguard : loop_guard max_pages (init_state ledger start_url) = true).
  { cbn -[Z.ltb]. apply Z.ltb_lt. lia. }
  rewrite Hguard.
  set (st0 := mark_visited start_url (set_queue [] (init_state ledger start_url))).
  assert (Hbody : loop_body w base_domain max_pages (init_state ledger start_url)
                  = visit_page w base_domain max_pages start_url st0).
  { unfold loop_body. cbn [init_state urls_to_visit].
    rewrite bool_decide_eq_false_2; [done|]. cbn. apply not_elem_of_empty. }
  rewrite Hbody.
  set (st1 := visit_page w base_domain max_pages start_url st0).
  destruct (crawl_loop fuel w base_domain max_pages st1) as [st'|] eqn:Hloop;
    [|discriminate].
  intros [= <-].
  apply crawl_loop_extends in Hloop as [Hv Hc Hd _ Ht].
  destruct (visit_page_spec w base_domain max_pages start_url st0)
    as (Hv1 & Hpc1 & _ & _).
  destruct (visit_page_trace w base_domain max_pages start_url st0)
    as (tl & Htr1 & _).
  fold st1 in Hv1, Hpc1, Htr1. cbn in Hv1, Hpc1, Htr1.
  split_and!.
  - apply Hv. rewrite Hv1. apply elem_of_union. left. by apply elem_of_singleton.
  - lia.
  - destruct Ht as [k Hk]. rewrite Hk, Htr1. by eexists.
  - intros soup mc title Hget Hsel Hlen Htitle.
    destruct (visit_page_adds_document w base_domain max_pages start_url st0
                soup mc title Hget Hsel Hlen Htitle) as [Hdoc _].
    fold st1 in Hdoc. cbn in Hdoc.
    destruct Hd as [k Hk]. rewrite Hk, Hdoc. by eexists.
Qed.

Lemma seed_visited_unfiltered_witness :
  Py.contains Scenario.concepts langgraph_path_pattern = false
  ∧ ∃ st,
      scrape_langchain_docs Scenario.unscoped_seed [] Scenario.concepts 1
      = Some (Ok st)
      ∧ Scenario.concepts ∈ visited_urls st
      ∧ (1 ≤ page_count st)%Z
      ∧ ∃ more,
          documents st
          = document_of Scenario.concepts "Concepts" (Scenario.filler 320) 1
            :: more.
Proof.
  split; [reflexivity|].
  destruct (seed_visited_unfiltered Scenario.unscoped_seed [] Scenario.concepts
              1 {| scheme := "https"; netloc := "docs.langchain.com" |})
    as (st & Hrun & Hv & Hc & _ & Hdoc).
  - lia.
  - reflexivity.
  - exists st. split; [exact Hrun|]. split; [exact Hv|]. split; [exact Hc|].
    apply (Hdoc (Scenario.article_page
                   (Some (Some "Concepts | 🦜️🔗 LangChain"))
                   (Scenario.filler 320) [Scenario.overview])
                {| text_strip := Scenario.filler 320;
                   text_lines := Scenario.filler 320;
                   hrefs := [Scenario.overview] |}).
    + reflexivity.
    + reflexivity.
    + vm_compute. lia.
    + vm_compute. reflexivity.
Defined.

(** * Further properties of the crawl *)

(** A property kept by every iteration holds when the loop ends. *)
Lemma crawl_loop_preserves (P : CrawlState → Prop) w base_domain max_pages :
  (∀ st, P st → loop_guard max_pages st = true →
         P (loop_body w base_domain max_pages st)) →
  ∀ fuel st st',
    P st → crawl_loop fuel w base_domain max_pages st = Some st' → P st'.
Proof.
  intros Hstep. induction fuel as [|fuel IH]; intros st st' HP; simpl;
    destruct (loop_guard max_pages st) eqn:Hguard; try discriminate;
    try (by intros [= <-]).
  intros Hrun. eapply IH; [|exact Hrun]. by apply Hstep.
Qed.

(** The same for the whole crawl. *)
Lemma scrape_preserves (P : CrawlState → Prop) w ledger start_url max_pages
    parsed st :
  urlparse w start_url = Ok parsed →
  P (init_state ledger start_url) →
  (∀ st, P st → loop_guard max_pages st = true →
         P (loop_body w (base_domain_of parsed) max_pages st)) →
  scrape_langchain_docs w ledger start_url max_pages = Some (Ok st) →
  P st.
Proof.
  intros Hparse Hinit Hstep. unfold scrape_langchain_docs. rewrite Hparse.
  fold (base_domain_of parsed).
  destruct (crawl_loop (Z.to_nat max_pages) w (base_domain_of parsed)
              max_pages (init_state ledger start_url)) as [st'|] eqn:Hrun;
    [|discriminate].
  intros [= <-]. by eapply crawl_loop_preserves.
Qed.

(** A crawl that returns a state had its start URL parsed. *)
Lemma scrape_parsed w ledger start_url max_pages st :
  scrape_langchain_docs w ledger start_url max_pages = Some (Ok st) →
  ∃ parsed, urlparse w start_url = Ok parsed.
Proof.
  unfold scrape_langchain_docs.
  destruct (urlparse w start_url) as [parsed|msg]; [by eexists|discriminate].
Qed.

Lemma fetched_app tr1 tr2 : fetched (tr1 ++ tr2) = fetched tr1 ++ fetched tr2.
Proof.
  induction tr1 as [|[]] ; simpl; try done. by rewrite IHtr1.
Qed.

Lemma sleeps_app tr1 tr2 : sleeps (tr1 ++ tr2) = sleeps tr1 + sleeps tr2.
Proof.
  induction tr1 as [|[]]; simpl; try done. by rewrite IHtr1.
Qed.

(** What one iteration does to the trace: nothing, or one request followed
    by at most one sleep. *)
Lemma loop_body_trace w base_domain max_pages st :
  let st' := loop_body w base_domain max_pages st in
  (trace st' = trace st
   ∧ visited_urls st' = visited_urls st
   ∧ page_count st' = page_count st)
  ∨ ∃ url tl,
      (url ∉ visited_urls st)
      ∧ trace st' = trace st ++ EvGet url :: tl
      ∧ (tl = [] ∨ tl = [EvSleep])
      ∧ visited_urls st' = {[url]} ∪ visited_urls st
      ∧ page_count st' = (page_count st + 1)%Z.
Proof.
  unfold loop_body. destruct (urls_to_visit st) as [|url rest]; [by left|].
  simpl. case_bool_decide as Hvis; [by left|].
  right. exists url.
  set (st1 := mark_visited url (set_queue rest st)).
  destruct (visit_page_trace w base_domain max_pages url st1) as (tl & Htr & Htl).
  destruct (visit_page_spec w base_domain max_pages url st1)
    as (Hv & Hpc & _).
  exists tl. by rewrite Htr, Hv, Hpc.
Qed.

(** The trace of a crawl against its visited set and its page count. *)
Lemma scrape_trace_inv w ledger start_url max_pages st :
  scrape_langchain_docs w ledger start_url max_pages = Some (Ok st) →
  NoDup (fetched (trace st))
  ∧ (∀ u, u ∈ fetched (trace st) ↔ u ∈ visited_urls st)
  ∧ Z.of_nat (length (fetched (trace st))) = page_count st
  ∧ (page_count st ≤ Z.max 0 max_pages)%Z
  ∧ sleeps (trace st) ≤ length (fetched (trace st)).
Proof.
  intros Hrun. destruct (scrape_parsed _ _ _ _ _ Hrun) as [parsed Hparse].
  revert Hrun.
  apply (scrape_preserves
           (λ st, NoDup (fetched (trace st))
                  ∧ (∀ u, u ∈ fetched (trace st) ↔ u ∈ visited_urls st)
                  ∧ Z.of_nat (length (fetched (trace st))) = page_count st
                  ∧ (page_count st ≤ Z.max 0 max_pages)%Z
                  ∧ sleeps (trace st) ≤ length (fetched (trace st)))
           w ledger start_url max_pages parsed); [done| |].
  - simpl. split_and!; [constructor| |done|lia|done].
    intros u. split; [by intros ?%elem_of_nil|by intros ?%elem_of_empty].
  - clear st. intros st (Hnd & Hiff & Hlen & Hb & Hs) Hguard.
    assert (Hlt : (page_count st < max_pages)%Z).
    { unfold loop_guard in Hguard. destruct (urls_to_visit st); [discriminate|].
      by apply Z.ltb_lt. }
    destruct (loop_body_trace w (base_domain_of parsed) max_pages st)
      as [(-> & -> & ->)|(url & tl & Hfresh & -> & Htl & -> & ->)]; [done|].
    assert (Hf : fetched (trace st ++ EvGet url :: tl)
                 = fetched (trace st) ++ [url]).
    { rewrite fetched_app. by destruct Htl as [->| ->]. }
    assert (Hsl : sleeps (trace st ++ EvGet url :: tl) ≤ sleeps (trace st) + 1).
    { rewrite sleeps_app. destruct Htl as [->| ->]; simpl; lia. }
    rewrite Hf, length_app. simpl. split_and!.
    + apply NoDup_app. split; [done|]. split; [|apply NoDup_singleton].
      intros x Hx ->%list_elem_of_singleton. by apply Hfresh, Hiff.
    + intros u. rewrite elem_of_app, list_elem_of_singleton, elem_of_union,
        elem_of_singleton, Hiff. tauto.
    + lia.
    + lia.
    + lia.
Qed.

(** X1. Requests of a crawl: no URL is requested twice; the URLs requested
    are exactly the visited ones; their number is the page count, which
    does not exceed the budget; and there are at most as many sleeps as
    requests. *)
Theorem crawl_requests_bounded w ledger start_url max_pages st :
  scrape_langchain_docs w ledger start_url max_pages = Some (Ok st) →
  NoDup (fetched (trace st))
  ∧ (∀ u, u ∈ fetched (trace st) ↔ u ∈ visited_urls st)
  ∧ Z.of_nat (length (fetched (trace st))) = page_count st
  ∧ (page_count st ≤ Z.max 0 max_pages)%Z
  ∧ sleeps (trace st) ≤ length (fetched (trace st)).
Proof. apply scrape_trace_inv. Qed.

Lemma crawl_requests_bounded_witness :
  ∃ st,
    scrape_langchain_docs Scenario.broken_link [] Scenario.overview 2
    = Some (Ok st)
    ∧ fetched (trace st) = [Scenario.overview; Scenario.install]
    ∧ NoDup (fetched (trace st))
    ∧ (page_count st ≤ Z.max 0 2)%Z
    ∧ sleeps (trace st) ≤ length (fetched (trace st)).
Proof.
  eexists. split; [vm_compute; reflexivity|]. split; [reflexivity|].
  match goal with
  | |- context [trace ?s] =>
      destruct (crawl_requests_bounded Scenario.broken_link []
                  Scenario.overview 2 s) as (Hnd & _ & _ & Hb & Hs)
  end.
  - vm_compute. reflexivity.
  - split; [exact Hnd|]. split; [exact Hb|exact Hs].
Defined.

(** One iteration, case by case: nothing to dequeue; a dequeued URL that
    is already visited, dropped; or a visit, which counts the URL, marks
    it, appends accepted links at the tail of the queue and either appends
    one Document with its ledger entry or leaves both lists alone. *)
Lemma loop_body_spec w base_domain max_pages st :
  let st' := loop_body w base_domain max_pages st in
  (urls_to_visit st = [] ∧ st' = st)
  ∨ (∃ url rest,
       urls_to_visit st = url :: rest
       ∧ url ∈ visited_urls st
       ∧ st' = set_queue rest st)
  ∨ (∃ url rest extra,
       urls_to_visit st = url :: rest
       ∧ (url ∉ visited_urls st)
       ∧ visited_urls st' = {[url]} ∪ visited_urls st
       ∧ page_count st' = (page_count st + 1)%Z
       ∧ urls_to_visit st' = rest ++ extra
       ∧ (NoDup rest → NoDup (rest ++ extra))
       ∧ (∀ u, u ∈ extra →
            u ≠ url ∧ (u ∉ visited_urls st) ∧ (u ∉ rest)
            ∧ in_scope base_domain u)
       ∧ ((documents st' = documents st
           ∧ scraped_pages st' = scraped_pages st
           ∧ extra = [])
          ∨ (∃ title text,
               300 < String.length text
               ∧ documents st' = documents st ++
                   [document_of url title text (page_count st + 1)]
               ∧ scraped_pages st' = scraped_pages st ++
                   [record_of url title text (page_count st + 1)]))).
Proof.
  unfold loop_body. destruct (urls_to_visit st) as [|url rest] eqn:Hq;
    [by left|].
  right. simpl. case_bool_decide as Hvis.
  - left. by exists url, rest.
  - right. exists url, rest.
    set (st1 := mark_visited url (set_queue rest st)).
    destruct (visit_page_spec w base_domain max_pages url st1)
      as (Hv & Hpc & (extra & Hq' & Hnd & Hex) & Hdocs).
    simpl in Hv, Hpc, Hq', Hnd, Hex, Hdocs.
    exists extra. rewrite Hq' in Hnd. split_and!; try done.
    + intros u Hu. destruct (Hex u Hu) as (Hnv & Hnr & Hsw & Hct).
      split_and!; try done.
      * intros ->. apply Hnv, elem_of_union. left. by apply elem_of_singleton.
      * intros Hin. apply Hnv, elem_of_union. by right.
    + destruct Hdocs as [(Hd & Hl & Hsame)|(soup & mc & title & _ & _ & Hlen & _ & Hd & Hl)].
      * left. split_and!; try done. rewrite Hq' in Hsame.
        apply (app_inv_head rest). by rewrite app_nil_r.
      * right. by exists title, (extract_text mc).
Qed.

(** X2. Apart from the start URL, every URL that a crawl visits, requests
    or leaves in its queue starts with the base domain and contains
    [/langgraph/]; so does the source of every Document not taken from the
    start URL. *)
Theorem crawl_stays_in_scope w ledger start_url max_pages parsed st :
  urlparse w start_url = Ok parsed →
  scrape_langchain_docs w ledger start_url max_pages = Some (Ok st) →
  (∀ u, u ∈ visited_urls st ∨ u ∈ urls_to_visit st →
        u = start_url ∨ in_scope (base_domain_of parsed) u)
  ∧ Forall (λ d, md_source (metadata d) = start_url
                 ∨ in_scope (base_domain_of parsed) (md_source (metadata d)))
           (documents st).
Proof.
  intros Hparse.
  set (ok := λ u, u = start_url ∨ in_scope (base_domain_of parsed) u).
  apply (scrape_preserves
           (λ st, (∀ u, u ∈ visited_urls st ∨ u ∈ urls_to_visit st → ok u)
                  ∧ Forall (λ d, ok (md_source (metadata d))) (documents st))
           w ledger start_url max_pages parsed); [done| |].
  - simpl. split; [|constructor].
    intros u [Hu|Hu]; [by apply elem_of_empty in Hu|].
    apply list_elem_of_singleton in Hu. by left.
  - clear st. intros st [Hok Hdocs] _.
    destruct (loop_body_spec w (base_domain_of parsed) max_pages st)
      as [(_ & ->)|[(url & rest & Hq & _ & ->)|
                    (url & rest & extra & Hq & _ & -> & _ & -> & _ & Hex & Hd)]];
      [done| |].
    + split; [|done]. simpl. rewrite Hq in Hok.
      intros u [Hu|Hu]; apply Hok; [by left|right; by right].
    + rewrite Hq in Hok.
      assert (Hurl : ok url) by (apply Hok; right; left).
      split.
      * intros u [Hu|Hu].
        -- apply elem_of_union in Hu as [->%elem_of_singleton|Hu]; [done|].
           apply Hok. by left.
        -- apply elem_of_app in Hu as [Hu|Hu]; [apply Hok; right; by right|].
           right. by destruct (Hex u Hu) as (_ & _ & _ & ?).
      * destruct Hd as [(-> & _)|(title & text & _ & -> & _)]; [done|].
        apply Forall_app. split; [done|]. by apply Forall_singleton.
Qed.

Lemma crawl_stays_in_scope_witness :
  ∃ st,
    scrape_langchain_docs Scenario.repeated_links [] Scenario.overview 5
    = Some (Ok st)
    ∧ bool_decide (Scenario.concepts ∈ visited_urls st) = false
    ∧ Forall (λ d, md_source (metadata d) = Scenario.overview
                   ∨ in_scope Scenario.base (md_source (metadata d)))
             (documents st).
Proof.
  eexists. split; [vm_compute; reflexivity|]. split.
  - vm_compute. reflexivity.
  - match goal with
    | |- context [documents ?s] =>
        destruct (crawl_stays_in_scope Scenario.repeated_links []
                    Scenario.overview 5
                    {| scheme := "https"; netloc := "docs.langchain.com" |} s)
          as [_ Hdocs]
    end.
    + reflexivity.
    + vm_compute. reflexivity.
    + exact Hdocs.
Defined.

(** X3. Page numbers follow the order of the lists: along the Documents
    returned, and along the ledger entries appended, they increase
    strictly; each lies between 1 and the final page count. *)
Theorem page_numbers_increase w ledger start_url max_pages st :
  scrape_langchain_docs w ledger start_url max_pages = Some (Ok st) →
  StronglySorted Z.lt ((λ d, md_page_number (metadata d)) <$> documents st)
  ∧ Forall (λ d, (1 ≤ md_page_number (metadata d) ≤ page_count st)%Z)
           (documents st)
  ∧ ∃ new, scraped_pages st = ledger ++ new
           ∧ StronglySorted Z.lt (pg_page_number <$> new).
Proof.
  intros Hrun. destruct (scrape_parsed _ _ _ _ _ Hrun) as [parsed Hparse].
  destruct (documents_exceed_threshold _ _ _ _ _ Hrun) as [_ Hl].
  assert (Hinv :
    (0 ≤ page_count st)%Z
    ∧ StronglySorted Z.lt ((λ d, md_page_number (metadata d)) <$> documents st)
    ∧ Forall (λ d, (1 ≤ md_page_number (metadata d) ≤ page_count st)%Z)
             (documents st)).
  { revert Hrun.
    apply (scrape_preserves
             (λ st, (0 ≤ page_count st)%Z
                    ∧ StronglySorted Z.lt
                        ((λ d, md_page_number (metadata d)) <$> documents st)
                    ∧ Forall (λ d, (1 ≤ md_page_number (metadata d)
                                    ≤ page_count st)%Z) (documents st))
             w ledger start_url max_pages parsed); [done| |].
    - simpl. split_and!; [done|constructor|constructor].
    - clear st Hl. intros st (Hpc & Hsorted & Hall) _.
      destruct (loop_body_spec w (base_domain_of parsed) max_pages st)
        as [(_ & ->)|[(url & rest & _ & _ & ->)|
                      (url & rest & extra & _ & _ & _ & -> & _ & _ & _ & Hd)]];
        [done|done|].
      assert (Hweak : Forall (λ d, (1 ≤ md_page_number (metadata d)
                                    ≤ page_count st + 1)%Z) (documents st)).
      { eapply Forall_impl; [exact Hall|]. simpl. lia. }
      destruct Hd as [(-> & _)|(title & text & _ & -> & _)].
      + split_and!; [lia|done|done].
      + split_and!; [lia| |].
        * rewrite fmap_app. apply StronglySorted_app_2; [|done|].
          -- intros x1 x2 Hx1 ->%list_elem_of_singleton. simpl.
             apply list_elem_of_fmap in Hx1 as (d & -> & Hin).
             rewrite Forall_forall in Hall. specialize (Hall d Hin). lia.
          -- repeat constructor.
        * apply Forall_app. split; [done|]. apply Forall_singleton. simpl. lia. }
  destruct Hinv as (_ & Hsorted & Hall). split_and!; [done|done|].
  exists (record_of_document <$> documents st). split; [done|].
  by rewrite <- list_fmap_compose.
Qed.

Lemma page_numbers_increase_witness :
  ∃ st,
    scrape_langchain_docs Scenario.broken_link [] Scenario.overview 5
    = Some (Ok st)
    ∧ pg_page_number <$> scraped_pages st = [1%Z; 3%Z]
    ∧ StronglySorted Z.lt ((λ d, md_page_number (metadata d)) <$> documents st).
Proof.
  eexists. split; [vm_compute; reflexivity|]. split; [reflexivity|].
  match goal with
  | |- context [documents ?s] =>
      destruct (page_numbers_increase Scenario.broken_link []
                  Scenario.overview 5 s) as (Hsorted & _)
  end.
  - vm_compute. reflexivity.
  - exact Hsorted.
Defined.

(** X4. The ledger mirrors the Documents: a crawl appends to the ledger
    one entry per Document returned, in the same order, with the
    Document's source, title and page number, and with the length of its
    text, which exceeds 300. *)
Theorem ledger_mirrors_documents w ledger start_url max_pages st :
  scrape_langchain_docs w ledger start_url max_pages = Some (Ok st) →
  ∃ new,
    scraped_pages st = ledger ++ new
    ∧ Forall2
        (λ d r,
           pg_url r = md_source (metadata d)
           ∧ pg_title r = md_title (metadata d)
           ∧ pg_page_number r = md_page_number (metadata d)
           ∧ pg_length r = String.length (text d)
           ∧ 300 < pg_length r)
        (documents st) new.
Proof.
  intros Hrun. destruct (documents_exceed_threshold _ _ _ _ _ Hrun) as [Hlen Hl].
  exists (record_of_document <$> documents st). split; [done|].
  apply Forall2_fmap_r, Forall_Forall2_diag.
  eapply Forall_impl; [exact Hlen|]. by intros d Hd.
Qed.

Lemma ledger_mirrors_documents_witness :
  ∃ st new,
    scrape_langchain_docs Scenario.unscoped_seed [] Scenario.concepts 5
    = Some (Ok st)
    ∧ scraped_pages st = [] ++ new
    ∧ pg_length <$> new = [320; 400]
    ∧ length (documents st) = length new.
Proof.
  eexists.
  match goal with
  | |- ∃ new, ?run = Some (Ok ?s) ∧ _ =>
      assert (Hrun : run = Some (Ok s)) by (vm_compute; reflexivity)
  end.
  destruct (ledger_mirrors_documents _ _ _ _ _ Hrun) as (new & Hl & Hall).
  exists new. split; [exact Hrun|]. split; [exact Hl|]. split.
  - simpl in Hl. rewrite <- Hl. reflexivity.
  - exact (Forall2_length _ _ _ Hall).
Defined.

(** X5. The state at loop exit, for a budget that is not negative: the
    queue is empty or the page count has reached [max_pages] exactly; the
    URLs left in the queue are pairwise distinct and none of them was
    visited. *)
Theorem crawl_exit_state w ledger start_url max_pages st :
  (0 ≤ max_pages)%Z →
  scrape_langchain_docs w ledger start_url max_pages = Some (Ok st) →
  (urls_to_visit st = [] ∨ page_count st = max_pages)
  ∧ NoDup (urls_to_visit st)
  ∧ ∀ u, u ∈ urls_to_visit st → u ∉ visited_urls st.
Proof.
  intros Hm Hrun.
  destruct (scrape_langchain_docs_inv _ _ _ _ _ Hm Hrun)
    as [_ Hb Hnd Hfr _ _ _ _].
  split_and!; [|done|done].
  pose proof (scrape_langchain_docs_returns w ledger start_url max_pages) as Hret.
  destruct (scrape_parsed _ _ _ _ _ Hrun) as [parsed Hparse].
  rewrite Hparse in Hret. destruct Hret as (st' & Hrun' & Hguard & _).
  rewrite Hrun in Hrun'. injection Hrun' as <-.
  unfold loop_guard in Hguard.
  destruct (urls_to_visit st); [by left|].
  right. apply Z.ltb_ge in Hguard. lia.
Qed.

Lemma crawl_exit_state_witness :
  ∃ st,
    scrape_langchain_docs Scenario.repeated_links [] Scenario.overview 2
    = Some (Ok st)
    ∧ urls_to_visit st = [Scenario.quickstart]
    ∧ (urls_to_visit st = [] ∨ page_count st = 2%Z).
Proof.
  eexists. split; [vm_compute; reflexivity|]. split; [reflexivity|].
  match goal with
  | |- context [page_count ?s] =>
      destruct (crawl_exit_state Scenario.repeated_links []
                  Scenario.overview 2 s) as (Hexit & _)
  end.
  - lia.
  - vm_compute. reflexivity.
  - exact Hexit.
Defined.

(** X6. With [max_pages ≤ 0] the loop is never entered: the crawl makes no
    request, returns no Document and leaves the ledger as it found it, the
    start URL still queued. *)
Theorem crawl_without_budget w ledger start_url max_pages parsed :
  (max_pages ≤ 0)%Z →
  urlparse w start_url = Ok parsed →
  scrape_langchain_docs w ledger start_url max_pages
  = Some (Ok {| documents := []; visited_urls := ∅;
                urls_to_visit := [start_url]; page_count := 0;
                scraped_pages := ledger; trace := [] |}).
Proof.
  intros Hm Hparse. unfold scrape_langchain_docs. rewrite Hparse.
  assert (Hg : loop_guard max_pages (init_state ledger start_url) = false).
  { cbn -[Z.ltb]. apply Z.ltb_ge. lia. }
  destruct (Z.to_nat max_pages); simpl; by rewrite Hg.
Qed.

Lemma crawl_without_budget_witness :
  (0 ≤ 0)%Z
  ∧ scrape_langchain_docs Scenario.broken_link [] Scenario.overview 0
    = Some (Ok {| documents := []; visited_urls := ∅;
                  urls_to_visit := [Scenario.overview]; page_count := 0;
                  scraped_pages := []; trace := [] |}).
Proof.
  split; [lia|].
  apply (crawl_without_budget Scenario.broken_link [] Scenario.overview 0
           {| scheme := "https"; netloc := "docs.langchain.com" |}).
  - lia.
  - reflexivity.
Defined.

(** Every URL that the link loop appends is the resolution of one of the
    links it was given. *)
Lemma discover_links_origin w base_domain url visited links :
  ∀ queue queue' r,
    discover_links w base_domain url visited links queue = (queue', r) →
    ∃ extra,
      queue' = queue ++ extra
      ∧ ∀ u, u ∈ extra → ∃ href, href ∈ links ∧ urljoin w url href = Ok u.
Proof.
  induction links as [|href links IH]; intros queue queue' r; simpl.
  - intros [= <- <-]. exists []. rewrite app_nil_r. split; [done|].
    by intros u ?%elem_of_nil.
  - destruct (should_follow w base_domain url visited queue href)
      as [|full_url|msg] eqn:Hsf.
    + intros Hrec. destruct (IH _ _ _ Hrec) as (extra & -> & Hex).
      exists extra. split; [done|]. intros u Hu.
      destruct (Hex u Hu) as (h & Hh & Hjoin). exists h. split; [by right|done].
    + intros Hrec. destruct (IH _ _ _ Hrec) as (extra & -> & Hex).
      apply should_follow_Followed in Hsf as (Hjoin & _).
      exists (full_url :: extra). split; [by rewrite <- app_assoc|].
      intros u [->|Hu]%elem_of_cons.
      * exists href. split; [by left|done].
      * destruct (Hex u Hu) as (h & Hh & Hjoin'). exists h.
        split; [by right|done].
    + intros [= <- <-]. exists []. rewrite app_nil_r. split; [done|].
      by intros u ?%elem_of_nil.
Qed.

(** What a visit appends to the queue comes from the links of the content
    region of the page visited. *)
Lemma visit_page_links_origin w base_domain max_pages url st extra :
  urls_to_visit (visit_page w base_domain max_pages url st)
  = urls_to_visit st ++ extra →
  ∀ u, u ∈ extra →
    ∃ soup main_content href,
      http_get w url = Some soup
      ∧ select_main_content soup = Some main_content
      ∧ href ∈ hrefs main_content
      ∧ urljoin w url href = Ok u.
Proof.
  assert (Hnil : urls_to_visit st = urls_to_visit st ++ extra →
                 ∀ u, u ∈ extra →
                   ∃ soup main_content href,
                     http_get w url = Some soup
                     ∧ select_main_content soup = Some main_content
                     ∧ href ∈ hrefs main_content
                     ∧ urljoin w url href = Ok u).
  { intros Heq u Hu. rewrite <- (app_nil_r (urls_to_visit st)) in Heq at 1.
    apply app_inv_head in Heq. subst extra. by apply elem_of_nil in Hu. }
  unfold visit_page.
  destruct (http_get w url) as [soup|] eqn:Hget; simpl; [|done].
  destruct (select_main_content soup) as [mc|] eqn:Hsel; simpl; [|done].
  destruct (Nat.ltb 300 (String.length (extract_text mc))); simpl; [|done].
  destruct (page_title soup url) as [title|msg]; simpl; [|done].
  destruct (page_count st <? max_pages)%Z; simpl; [|done].
  destruct (discover_links w base_domain url (visited_urls st) (hrefs mc)
              (urls_to_visit st)) as [q r] eqn:Hdl.
  destruct (discover_links_origin _ _ _ _ _ _ _ _ Hdl) as (extra' & -> & Hex).
  intros Hq u Hu.
  assert (Heq : urls_to_visit st ++ extra' = urls_to_visit st ++ extra)
    by (destruct r; exact Hq).
  apply app_inv_head in Heq. subst extra'.
  destruct (Hex u Hu) as (href & Hin & Hjoin). by exists soup, mc, href.
Qed.

(** X7. The queue is first in, first out: an iteration that dequeues an
    unvisited URL requests that URL, keeps the rest of the queue in place
    and appends at its tail; what it appends are resolutions of links of
    the content region of the page just fetched, each new to the queue and
    to the visited set. *)
Theorem iteration_is_fifo w base_domain max_pages st url rest :
  urls_to_visit st = url :: rest →
  url ∉ visited_urls st →
  let st' := loop_body w base_domain max_pages st in
  ∃ extra,
    urls_to_visit st' = rest ++ extra
    ∧ fetched (trace st') = fetched (trace st) ++ [url]
    ∧ ∀ u, u ∈ extra →
        u ≠ url ∧ (u ∉ visited_urls st) ∧ (u ∉ rest)
        ∧ ∃ soup main_content href,
            http_get w url = Some soup
            ∧ select_main_content soup = Some main_content
            ∧ href ∈ hrefs main_content
            ∧ urljoin w url href = Ok u.
Proof.
  intros Hq Hfresh. unfold loop_body. rewrite Hq. simpl.
  rewrite bool_decide_eq_false_2 by done.
  set (st1 := mark_visited url (set_queue rest st)).
  destruct (visit_page_spec w base_domain max_pages url st1)
    as (_ & _ & (extra & Hq' & _ & Hex) & _).
  destruct (visit_page_trace w base_domain max_pages url st1)
    as (tl & Htr & Htl).
  simpl in Hq', Hex, Htr.
  exists extra. split_and!; [done| |].
  - rewrite Htr, fetched_app. by destruct Htl as [->| ->].
  - intros u Hu. destruct (Hex u Hu) as (Hnv & Hnr & _).
    split_and!.
    + intros ->. apply Hnv, elem_of_union. left. by apply elem_of_singleton.
    + intros Hin. apply Hnv, elem_of_union. by right.
    + done.
    + by apply (visit_page_links_origin w base_domain max_pages url st1 extra).
Qed.

Lemma iteration_is_fifo_witness :
  let st := {| documents := []; visited_urls := ∅;
               urls_to_visit := [Scenario.overview; Scenario.concepts];
               page_count := 0; scraped_pages := []; trace := [] |} in
  ∃ extra,
    urls_to_visit (loop_body Scenario.repeated_links Scenario.base 5 st)
    = [Scenario.concepts] ++ extra
    ∧ extra = [Scenario.install; Scenario.quickstart].
Proof.
  intros st.
  destruct (iteration_is_fifo Scenario.repeated_links Scenario.base 5 st
              Scenario.overview [Scenario.concepts]) as (extra & Hq & _).
  - reflexivity.
  - apply not_elem_of_empty.
  - exists extra. split; [exact Hq|].
    apply (app_inv_head [Scenario.concepts]). rewrite <- Hq.
    vm_compute. reflexivity.
Defined.


(** * Further properties of the service *)

(** The first phase of [ingest_documents], case by case. *)
Lemma gather_cases w docs url max_pages g :
  gather w docs url max_pages = Some g →
  (truthy_str url && negb (truthy_list docs) = false
   ∧ g = Ok (docs, [], []))
  ∨ (∃ u, url = Some u
          ∧ truthy_list docs = false
          ∧ ((∃ msg, scrape_langchain_docs w [] u max_pages = Some (Raise msg)
                     ∧ g = Raise msg)
             ∨ (∃ st, scrape_langchain_docs w [] u max_pages = Some (Ok st)
                      ∧ g = Ok (Some (documents st), scraped_pages st,
                                trace st)))).
Proof.
  unfold gather. destruct url as [u|].
  - destruct (truthy_str (Some u) && negb (truthy_list docs)) eqn:Hc.
    + apply andb_prop in Hc as [_ Hd%negb_true_iff].
      destruct (scrape_langchain_docs w [] u max_pages) as [[st|msg]|] eqn:Hrun;
        [| |discriminate]; intros [= <-]; right; exists u;
        (split; [done|]); (split; [done|]).
      * right. by exists st.
      * left. by exists msg.
    + intros [= <-]. by left.
  - intros [= <-]. by left.
Qed.

(** [ingest_documents], case by case: the crawl raised; no document to
    ingest; or the documents went to the engine, which raised or not. *)
Lemma ingest_documents_cases {Index Score : Type} (w : World)
    (eng : Engine Index Score) (self self' : RAGService Index)
    docs url max_pages r tr :
  ingest_documents w eng self docs url max_pages = Some (self', r, tr) →
  (∃ msg,
     gather w docs url max_pages = Some (Raise msg)
     ∧ self' = {| self_index := self_index self; self_scraped_pages := [] |}
     ∧ r = ingest_error msg []
     ∧ tr = [])
  ∨ (∃ docs' ledger,
       gather w docs url max_pages = Some (Ok (docs', ledger, tr))
       ∧ truthy_list docs' = false
       ∧ self' = {| self_index := self_index self;
                    self_scraped_pages := ledger |}
       ∧ r = {| i_status := error;
                i_message := "No documents provided or scraped";
                i_document_count := None;
                i_pages_scraped := [];
                i_total_characters := None |})
  ∨ (∃ docs' ledger tr0 index' res tr1,
       gather w docs url max_pages = Some (Ok (docs', ledger, tr0))
       ∧ truthy_list docs' = true
       ∧ index_documents eng (self_index self) (default [] docs')
         = (index', res, tr1)
       ∧ self' = {| self_index := index'; self_scraped_pages := ledger |}
       ∧ tr = tr0 ++ tr1
       ∧ r = match res with
             | Some msg => ingest_error msg ledger
             | None =>
                 {| i_status := success;
                    i_message := "Successfully ingested "
                                 +:+ pretty (length (default [] docs'))
                                 +:+ " documents";
                    i_document_count := Some (length (default [] docs'));
                    i_pages_scraped := ledger;
                    i_total_characters :=
                      Some (total_characters (default [] docs')) |}
             end).
Proof.
  unfold ingest_documents.
  destruct (gather w docs url max_pages) as [[[[docs' ledger] tr0]|msg]|];
    [| |discriminate].
  - cbn [self_index].
    destruct (truthy_list docs') eqn:Hd; cbn [negb].
    + destruct (index_documents eng (self_index self) (default [] docs'))
        as [[index' res] tr1] eqn:Hidx.
      intros Hcall. right. right.
      exists docs', ledger, tr0, index', res, tr1.
      destruct res; simplify_eq; done.
    + intros Hcall. simplify_eq. right. left. by exists docs', ledger.
  - intros Hcall. simplify_eq. left. by exists msg.
Qed.

(** The engine calls of the indexing step are calls to the engine. *)
Lemma insert_all_trace {Index Score : Type} (eng : Engine Index Score)
    (docs : list Document) :
  ∀ idx idx' res tr,
    insert_all eng idx docs = (idx', res, tr) →
    tr `prefix_of` (EvInsert <$> docs)
    ∧ (res = None → tr = EvInsert <$> docs)
    ∧ fetched tr = [].
Proof.
  induction docs as [|doc docs IH]; intros idx idx' res tr; simpl.
  - intros [= <- <- <-]. done.
  - destruct (insert eng idx doc) as [idx1 [msg|]].
    + intros [= <- <- <-]. split_and!; [|done|done].
      by exists (EvInsert <$> docs).
    + destruct (insert_all eng idx1 docs) as [[idx2 res2] tr2] eqn:Hrec.
      intros [= <- <- <-].
      destruct (IH _ _ _ _ Hrec) as (Hpre & Hall & Hf).
      split_and!.
      * by apply prefix_cons.
      * intros Hres. by rewrite (Hall Hres).
      * done.
Qed.

Lemma index_documents_trace {Index Score : Type} (eng : Engine Index Score)
    (index index' : option Index) docs res tr :
  index_documents eng index docs = (index', res, tr) →
  fetched tr = []
  ∧ match index with
    | None => tr = [EvFromDocuments docs]
    | Some _ =>
        tr `prefix_of` (EvInsert <$> docs)
        ∧ (res = None → tr = EvInsert <$> docs)
    end
  ∧ (is_Some index → is_Some index')
  ∧ (res = None → is_Some index')
  ∧ (index = None → res ≠ None → index' = None).
Proof.
  unfold index_documents. destruct index as [idx|].
  - destruct (insert_all eng idx docs) as [[idx2 res2] tr2] eqn:Hrec.
    intros [= <- <- <-].
    destruct (insert_all_trace eng docs _ _ _ _ Hrec) as (Hpre & Hall & Hf).
    split_and!; try done; by eauto.
  - destruct (from_documents eng docs) as [idx|msg]; intros [= <- <- <-];
      split_and!; try done; by eauto.
Qed.

(** The trace of a crawl holds requests and sleeps only. *)
Lemma scrape_trace_events w ledger start_url max_pages st :
  scrape_langchain_docs w ledger start_url max_pages = Some (Ok st) →
  forallb is_crawl_event (trace st) = true.
Proof.
  intros Hrun. destruct (scrape_parsed _ _ _ _ _ Hrun) as [parsed Hparse].
  revert Hrun.
  apply (scrape_preserves (λ st, forallb is_crawl_event (trace st) = true)
           w ledger start_url max_pages parsed); [done|done|].
  clear st. intros st Hev _.
  destruct (loop_body_trace w (base_domain_of parsed) max_pages st)
    as [(-> & _)|(url & tl & _ & -> & Htl & _)]; [done|].
  rewrite forallb_app, Hev. by destruct Htl as [->| ->].
Qed.

Lemma total_characters_ledger (docs : list Document) :
  total_characters docs = sum_list (pg_length <$> (record_of_document <$> docs)).
Proof.
  induction docs as [|d docs IH]; simpl; [done|]. f_equal. exact IH.
Qed.

(** The first phase leaves a trace of crawl events and a ledger that
    mirrors the documents crawled; without crawl both are empty. *)
Lemma gather_trace w docs url max_pages docs' ledger tr :
  gather w docs url max_pages = Some (Ok (docs', ledger, tr)) →
  (forallb is_crawl_event tr = true
   ∧ ledger = record_of_document <$> default [] docs'
   ∧ (truthy_list docs = true → docs' = docs ∧ tr = []))
  ∨ (forallb is_crawl_event tr = true
     ∧ docs' = docs ∧ ledger = [] ∧ tr = []).
Proof.
  intros Hg. destruct (gather_cases _ _ _ _ _ Hg)
    as [(_ & Heq)|(u & -> & Hd & [(msg & _ & Heq)|(st & Hrun & Heq)])];
    simplify_eq.
  - by right.
  - left. destruct (documents_exceed_threshold _ _ _ _ _ Hrun) as [_ Hl].
    split_and!; [by apply (scrape_trace_events _ _ _ _ _ Hrun)|done|].
    rewrite Hd. discriminate.
Qed.

(** A call with an empty URL and no documents. *)
Lemma ingest_empty_url {Index Score : Type} (w : World)
    (eng : Engine Index Score) (self : RAGService Index) max_pages :
  ingest_documents w eng self None (Some "") max_pages
  = Some ({| self_index := self_index self; self_scraped_pages := [] |},
          {| i_status := error;
             i_message := "No documents provided or scraped";
             i_document_count := None;
             i_pages_scraped := [];
             i_total_characters := None |},
          []).
Proof. reflexivity. Qed.

(** X9. A call with nothing to ingest (no URL or an empty one, and no
    documents or an empty list) makes no request and no engine call; it
    returns the error "No documents provided or scraped" with an empty
    [pages_scraped], keeps the index as it was and leaves the ledger
    empty. *)
Theorem ingest_without_input {Index Score : Type} (w : World)
    (eng : Engine Index Score) (self : RAGService Index) docs url max_pages :
  truthy_str url = false →
  truthy_list docs = false →
  ingest_documents w eng self docs url max_pages
  = Some ({| self_index := self_index self; self_scraped_pages := [] |},
          {| i_status := error;
             i_message := "No documents provided or scraped";
             i_document_count := None;
             i_pages_scraped := [];
             i_total_characters := None |},
          []).
Proof.
  intros Hurl Hdocs. unfold ingest_documents.
  assert (Hg : gather w docs url max_pages = Some (Ok (docs, [], []))).
  { unfold gather. destruct url as [u|]; [|done]. by rewrite Hurl. }
  rewrite Hg, Hdocs. done.
Qed.

Lemma ingest_without_input_witness :
  ingest_documents Scenario.broken_link Scenario.listing_engine
    {| self_index := Some [];
       self_scraped_pages := [record_of Scenario.overview "Overview" "x" 1] |}
    (Some []) (Some "") 30
  = Some ({| self_index := Some []; self_scraped_pages := [] |},
          {| i_status := error;
             i_message := "No documents provided or scraped";
             i_document_count := None;
             i_pages_scraped := [];
             i_total_characters := None |},
          []).
Proof.
  apply (ingest_without_input Scenario.broken_link Scenario.listing_engine);
    reflexivity.
Defined.

(** X10. A call that is given documents does not crawl, even when a URL
    comes with them: it makes no request, the ledger is left empty and
    [pages_scraped] is empty also on success, while [document_count] is
    the number of documents given. *)
Theorem ingest_supplied_documents {Index Score : Type} (w : World)
    (eng : Engine Index Score) (self : RAGService Index)
    (ds : list Document) url max_pages index' res tr :
  ds ≠ [] →
  index_documents eng (self_index self) ds = (index', res, tr) →
  ∃ r,
    ingest_documents w eng self (Some ds) url max_pages
    = Some ({| self_index := index'; self_scraped_pages := [] |}, r, tr)
    ∧ i_pages_scraped r = []
    ∧ fetched tr = []
    ∧ match res with
      | None =>
          i_status r = success
          ∧ i_document_count r = Some (length ds)
          ∧ i_total_characters r = Some (total_characters ds)
      | Some msg =>
          i_status r = error
          ∧ i_message r = "Error during ingestion: " +:+ msg
      end.
Proof.
  intros Hds Hidx. unfold ingest_documents.
  assert (Hd : truthy_list (Some ds) = true) by (by destruct ds).
  assert (Hg : gather w (Some ds) url max_pages = Some (Ok (Some ds, [], []))).
  { unfold gather. destruct url as [u|]; [|done].
    by rewrite Hd, andb_false_r. }
  rewrite Hg, Hd. cbn [negb self_index default from_option id].
  change (from_option id [] (Some ds)) with ds. rewrite Hidx.
  destruct (index_documents_trace eng _ _ _ _ _ Hidx) as (Hf & _).
  destruct res as [msg|]; eexists; (split; [reflexivity|]); done.
Qed.

Lemma ingest_supplied_documents_witness :
  let ds := [document_of Scenario.overview "Overview" (Scenario.filler 10) 1] in
  ∃ r,
    ingest_documents Scenario.broken_link Scenario.listing_engine
      {| self_index := None; self_scraped_pages := [] |}
      (Some ds) (Some Scenario.overview) 30
    = Some ({| self_index := Some ds; self_scraped_pages := [] |}, r,
            [EvFromDocuments ds])
    ∧ i_pages_scraped r = []
    ∧ i_document_count r = Some 1.
Proof.
  intros ds.
  destruct (ingest_supplied_documents Scenario.broken_link
              Scenario.listing_engine
              {| self_index := None; self_scraped_pages := [] |}
              ds (Some Scenario.overview) 30 (Some ds) None
              [EvFromDocuments ds])
    as (r & Hcall & Hpages & _ & _ & Hcount & _).
  - discriminate.
  - reflexivity.
  - exists r. split; [exact Hcall|]. split; [exact Hpages|exact Hcount].
Defined.

(** X11. The [pages_scraped] that a call returns is the ledger the
    service holds after the call. When the call was given no documents and
    succeeds, [pages_scraped] is not empty, [document_count] is its length
    and [total_characters] the sum of its [length] fields. *)
Theorem ingest_result_matches_ledger {Index Score : Type} (w : World)
    (eng : Engine Index Score) (self self' : RAGService Index)
    docs url max_pages r tr :
  ingest_documents w eng self docs url max_pages = Some (self', r, tr) →
  i_pages_scraped r = self_scraped_pages self'
  ∧ (truthy_list docs = false →
     i_status r = success →
     i_pages_scraped r ≠ []
     ∧ i_document_count r = Some (length (i_pages_scraped r))
     ∧ i_total_characters r
       = Some (sum_list (pg_length <$> i_pages_scraped r))).
Proof.
  intros Hcall.
  destruct (ingest_documents_cases _ _ _ _ _ _ _ _ _ Hcall)
    as [(msg & _ & -> & -> & _)
       |[(docs' & ledger & Hg & Hd & -> & ->)
        |(docs' & ledger & tr0 & index' & res & tr1
          & Hg & Hd & Hidx & -> & _ & ->)]].
  - split; [done|]. intros _ [=].
  - split; [|intros _ [=]]. simpl.
    destruct (gather_trace _ _ _ _ _ _ _ Hg) as [(_ & -> & _)|(_ & _ & -> & _)];
      [|done].
    by destruct docs' as [[|]|].
  - split; [by destruct res|].
    intros Hnone Hok. destruct res as [msg|]; [discriminate|]. simpl.
    destruct (gather_trace _ _ _ _ _ _ _ Hg) as [(_ & -> & _)|(_ & -> & _)].
    + split_and!.
      * destruct docs' as [[|]|]; done.
      * by rewrite length_fmap.
      * by rewrite total_characters_ledger.
    + congruence.
Qed.

Lemma ingest_result_matches_ledger_witness :
  ∃ self' r tr,
    ingest_documents Scenario.unscoped_seed Scenario.listing_engine
      {| self_index := None; self_scraped_pages := [] |}
      None (Some Scenario.concepts) 5
    = Some (self', r, tr)
    ∧ i_status r = success
    ∧ i_document_count r = Some 2
    ∧ i_pages_scraped r = self_scraped_pages self'.
Proof.
  do 3 eexists.
  match goal with
  | |- ?call = Some (?s, ?r, ?t) ∧ _ =>
      assert (Hcall : call = Some (s, r, t)) by (vm_compute; reflexivity)
  end.
  split; [exact Hcall|]. split; [reflexivity|]. split; [reflexivity|].
  exact (proj1 (ingest_result_matches_ledger _ _ _ _ _ _ _ _ _ Hcall)).
Defined.



(** X13. No call of [ingest_documents] takes an index away: a service
    that had one still has one; after a successful call there is one; and
    a call that fails on a service without index leaves it without. *)
Theorem ingest_keeps_index {Index Score : Type} (w : World)
    (eng : Engine Index Score) (self self' : RAGService Index)
    docs url max_pages r tr :
  ingest_documents w eng self docs url max_pages = Some (self', r, tr) →
  (is_Some (self_index self) → is_Some (self_index self'))
  ∧ (i_status r = success → is_Some (self_index self'))
  ∧ (self_index self = None → i_status r = error → self_index self' = None).
Proof.
  intros Hcall.
  destruct (ingest_documents_cases _ _ _ _ _ _ _ _ _ Hcall)
    as [(msg & _ & -> & -> & _)
       |[(docs' & ledger & _ & _ & -> & ->)
        |(docs' & ledger & tr0 & index' & res & tr1
          & _ & _ & Hidx & -> & _ & ->)]].
  - split_and!; [done|intros [=]|done].
  - split_and!; [done|intros [=]|done].
  - destruct (index_documents_trace eng _ _ _ _ _ Hidx)
      as (_ & _ & Hkeep & Hok & Hfail).
    split_and!; [done| |].
    + destruct res; [intros [=]|intros _; by apply Hok].
    + intros Hnone. destruct res; [intros _; by apply Hfail|intros [=]].
Qed.

Lemma ingest_keeps_index_witness :
  ∃ self' r tr,
    ingest_documents Scenario.unscoped_seed Scenario.failing_engine
      {| self_index := None; self_scraped_pages := [] |}
      None (Some Scenario.concepts) 5
    = Some (self', r, tr)
    ∧ i_status r = error
    ∧ self_index self' = None
    ∧ length (self_scraped_pages self') = 2.
Proof.
  do 3 eexists.
  match goal with
  | |- ?call = Some (?s, ?r, ?t) ∧ _ =>
      assert (Hcall : call = Some (s, r, t)) by (vm_compute; reflexivity)
  end.
  split; [exact Hcall|]. split; [reflexivity|]. split; [|reflexivity].
  destruct (ingest_keeps_index _ _ _ _ _ _ _ _ _ Hcall) as (_ & _ & Hfail).
  apply Hfail; reflexivity.
Defined.

(** X14. The dictionary of [query]: an error carries no sources; a
    success means that the service has an index and that the engine
    answered the one call made to it, with the [top_k] and the question
    given; the answer is the engine's, and the sources are its passages in
    their order, each score and metadata passed through unchanged. *)
Theorem query_result_shape {Index Score : Type} (eng : Engine Index Score)
    (self : RAGService Index) (question : string) (top_k : Z) :
  let '(r, tr) := query eng self question top_k in
  (q_status r = error → q_sources r = [])
  ∧ (tr = [] ∨ tr = [EvQuery top_k question])
  ∧ (q_status r = success →
     ∃ idx response,
       self_index self = Some idx
       ∧ run_query eng idx top_k question = Ok response
       ∧ tr = [EvQuery top_k question]
       ∧ q_answer r = response_str response
       ∧ src_score <$> q_sources r
         = node_score <$> default [] (source_nodes response)
       ∧ src_metadata <$> q_sources r
         = node_metadata <$> default [] (source_nodes response)).
Proof.
  unfold query. destruct (self_index self) as [idx|].
  - destruct (run_query eng idx top_k question) as [response|msg] eqn:Hq.
    + split_and!; [intros [=]|by right|].
      intros _. exists idx, response. split_and!; try done;
        destruct (source_nodes response) as [nodes|]; simpl; try done;
        by rewrite <- list_fmap_compose.
    + split_and!; [done|by right|intros [=]].
  - split_and!; [done|by left|intros [=]].
Qed.

(** X15. Health and statistics after a call of [ingest_documents]:
    [documents_ingested] is the length of the [pages_scraped] returned,
    whatever the outcome; after a success the index is ready and
    [get_stats] reports that length as [document_count], that list as
    [pages], and the store's count as [vector_count] (or the store's
    error). For documents given directly this count is 0. *)
Theorem stats_after_ingest {Index Score : Type} (store : Store Index)
    (w : World) (eng : Engine Index Score) (self self' : RAGService Index)
    docs url max_pages r tr :
  ingest_documents w eng self docs url max_pages = Some (self', r, tr) →
  documents_ingested (health self') = length (i_pages_scraped r)
  ∧ (i_status r = success →
     index_ready (health self') = true
     ∧ (truthy_list docs = true → documents_ingested (health self') = 0)
     ∧ ∃ idx,
         self_index self' = Some idx
         ∧ get_stats store self'
           = match collection_count store idx with
             | Ok n =>
                 StatsSuccess (length (i_pages_scraped r)) n
                   (i_pages_scraped r)
             | Raise msg => StatsError msg
             end).
Proof.
  intros Hcall.
  destruct (ingest_documents_cases _ _ _ _ _ _ _ _ _ Hcall)
    as [(msg & _ & -> & -> & _)
       |[(docs' & ledger & Hg & Hd & -> & ->)
        |(docs' & ledger & tr0 & index' & res & tr1
          & Hg & Hd & Hidx & -> & _ & ->)]].
  - split; [done|intros [=]].
  - split; [|intros [=]]. simpl.
    destruct (gather_trace _ _ _ _ _ _ _ Hg) as [(_ & -> & _)|(_ & _ & -> & _)];
      [|done].
    by destruct docs' as [[|]|].
  - split; [by destruct res|].
    intros Hok. destruct res as [msg|]; [discriminate|].
    destruct (index_documents_trace eng _ _ _ _ _ Hidx)
      as (_ & _ & _ & Hsome & _).
    destruct (Hsome eq_refl) as [idx ->].
    split_and!.
    + done.
    + intros Hgiven. simpl.
      destruct (gather_trace _ _ _ _ _ _ _ Hg)
        as [(_ & _ & Hdocs)|(_ & _ & -> & _)]; [|done].
      destruct (Hdocs Hgiven) as [-> _].
      destruct (gather_cases _ _ _ _ _ Hg)
        as [(_ & Heq)|(u & _ & Hnone & _)]; [by simplify_eq|congruence].
    + exists idx. split; [done|]. unfold get_stats. simpl.
      by destruct (collection_count store idx).
Qed.

Lemma stats_after_ingest_witness :
  ∃ self' r tr,
    ingest_documents Scenario.unscoped_seed Scenario.listing_engine
      (init_service Scenario.persisted_store)
      None (Some Scenario.concepts) 5
    = Some (self', r, tr)
    ∧ i_status r = success
    ∧ ∃ pages,
        get_stats Scenario.persisted_store self' = StatsSuccess 2 4 pages
        ∧ documents_ingested (health self') = 2.
Proof.
  do 3 eexists.
  match goal with
  | |- ?call = Some (?s, ?r, ?t) ∧ _ =>
      assert (Hcall : call = Some (s, r, t)) by (vm_compute; reflexivity)
  end.
  split; [exact Hcall|]. split; [reflexivity|].
  destruct (stats_after_ingest Scenario.persisted_store _ _ _ _ _ _ _ _ _ Hcall)
    as (Hhealth & Hstats).
  destruct (Hstats eq_refl) as (_ & _ & idx & Hidx & Hget).
  eexists. split; [|exact Hhealth].
  rewrite Hget. injection Hidx as <-. reflexivity.
Defined.

(** X16. Start-up forgets the ledger. The service starts with an empty
    ledger whatever the store holds: health reports 0 documents ingested,
    and reports the index ready exactly when the persisted index loaded.
    With the index loaded, [get_stats] reports [document_count] 0 and no
    page beside the store's [vector_count], and a query goes to the
    engine; without it, [get_stats] reports [no_index] and a query is
    answered with the error dictionary without any engine call. *)
Theorem startup_forgets_ledger {Index Score : Type} (store : Store Index)
    (eng : Engine Index Score) (question : string) (top_k : Z) :
  let self := init_service store in
  documents_ingested (health self) = 0
  ∧ match from_vector_store store with
    | Ok idx =>
        index_ready (health self) = true
        ∧ get_stats store self
          = match collection_count store idx with
            | Ok n => StatsSuccess 0 n []
            | Raise msg => StatsError msg
            end
        ∧ (query eng self question top_k).2 = [EvQuery top_k question]
    | Raise _ =>
        index_ready (health self) = false
        ∧ get_stats store self = StatsNoIndex "No documents ingested yet"
        ∧ (query eng self question top_k).2 = []
        ∧ q_status (query eng self question top_k).1 = error
    end.
Proof.
  unfold init_service, get_stats, health, query. simpl.
  split; [done|].
  destruct (from_vector_store store) as [idx|msg]; simpl.
  - split_and!; [done|by destruct (collection_count store idx)|].
    by destruct (run_query eng idx top_k question).
  - done.
Qed.

(** The requests of a call of [ingest_documents] are those of its crawl. *)
Lemma ingest_requests {Index Score : Type} (w : World)
    (eng : Engine Index Score) (self self' : RAGService Index)
    docs url max_pages r tr :
  ingest_documents w eng self docs url max_pages = Some (self', r, tr) →
  NoDup (fetched tr)
  ∧ (Z.of_nat (length (fetched tr)) ≤ Z.max 0 max_pages)%Z.
Proof.
  intros Hcall.
  assert (Hgather : ∀ docs' ledger tr0,
            gather w docs url max_pages = Some (Ok (docs', ledger, tr0)) →
            NoDup (fetched tr0)
            ∧ (Z.of_nat (length (fetched tr0)) ≤ Z.max 0 max_pages)%Z).
  { intros docs' ledger tr0 Hg.
    destruct (gather_cases _ _ _ _ _ Hg)
      as [(_ & Heq)|(u & _ & _ & [(msg & _ & Heq)|(st & Hrun & Heq)])];
      simplify_eq.
    - split; [constructor|simpl; lia].
    - destruct (scrape_trace_inv _ _ _ _ _ Hrun) as (Hnd & _ & Hlen & Hb & _).
      split; [done|lia]. }
  destruct (ingest_documents_cases _ _ _ _ _ _ _ _ _ Hcall)
    as [(msg & _ & _ & _ & ->)
       |[(docs' & ledger & Hg & _)
        |(docs' & ledger & tr0 & index' & res & tr1
          & Hg & _ & Hidx & _ & -> & _)]].
  - split; [constructor|simpl; lia].
  - by eapply Hgather.
  - destruct (index_documents_trace eng _ _ _ _ _ Hidx) as (Hf & _).
    rewrite fetched_app, Hf, app_nil_r. by eapply Hgather.
Qed.

(** X17. [POST /ingest]: the status code is 200 when the dictionary
    returned says success and 400 when it says error; the request makes at
    most [max_pages] fetches, 30 when the body names no [max_pages], and
    never fetches a URL twice; when the body gives an empty [url], nothing
    is fetched and the answer is an error. *)
Theorem ingest_endpoint_response {Index Score : Type} (w : World)
    (eng : Engine Index Score) (self self' : RAGService Index)
    (data : IngestRequest) body code tr :
  ingest_endpoint w eng self data = Some (self', (body, code), tr) →
  (code = 200%Z ∧ i_status body = success
   ∨ code = 400%Z ∧ i_status body = error)
  ∧ NoDup (fetched tr)
  ∧ (Z.of_nat (length (fetched tr))
     ≤ Z.max 0 (default 30 (req_max_pages data)))%Z
  ∧ (req_url data = Some "" → tr = [] ∧ code = 400%Z).
Proof.
  unfold ingest_endpoint.
  destruct (ingest_documents w eng self None
              (Some (default default_url (req_url data)))
              (default 30%Z (req_max_pages data)))
    as [[[s r] t]|] eqn:Hcall; [|discriminate].
  intros Heq. injection Heq as <- <- <- <-.
  destruct (ingest_requests _ _ _ _ _ _ _ _ _ Hcall) as [Hnd Hlen].
  split_and!; [|done|done|].
  - destruct (i_status r); [by left|by right].
  - intros Hurl. rewrite Hurl in Hcall. simpl in Hcall.
    rewrite ingest_empty_url in Hcall. by simplify_eq.
Qed.

Lemma ingest_endpoint_response_witness :
  ∃ self' body tr,
    ingest_endpoint Scenario.repeated_links Scenario.listing_engine
      (init_service Scenario.empty_store)
      {| req_url := None; req_max_pages := Some 2%Z |}
    = Some (self', (body, 200%Z), tr)
    ∧ fetched tr = [Scenario.overview; Scenario.install]
    ∧ (Z.of_nat (length (fetched tr)) ≤ Z.max 0 2)%Z.
Proof.
  do 3 eexists.
  match goal with
  | |- ?call = Some (?s, (?b, ?c), ?t) ∧ _ =>
      assert (Hcall : call = Some (s, (b, c), t)) by (vm_compute; reflexivity)
  end.
  split; [exact Hcall|]. split; [reflexivity|].
  destruct (ingest_endpoint_response _ _ _ _ _ _ _ _ Hcall)
    as (_ & _ & Hlen & _).
  exact Hlen.
Defined.

(** X18. [POST /query]: a body that is null, empty or without [question]
    is answered 400 with the message "Missing 'question' in request body"
    and no sources, and the service is not called; otherwise the answer is
    that of [query] for the question, with [top_k] 3 when the body names
    none, under the status code 200 for a success and 400 for an error,
    an error carrying no sources. *)
Theorem query_endpoint_response {Index Score : Type}
    (eng : Engine Index Score) (self : RAGService Index)
    (data : option QueryRequest) :
  let '(body, code, tr) := query_endpoint eng self data in
  (code = 200%Z ∧ q_status body = success
   ∨ code = 400%Z ∧ q_status body = error ∧ q_sources body = [])
  ∧ match data ≫= req_question with
    | None =>
        tr = []
        ∧ code = 400%Z
        ∧ q_answer body = "Missing 'question' in request body"
    | Some question =>
        (body, tr)
        = query eng self question (default 3%Z (data ≫= req_top_k))
    end.
Proof.
  unfold query_endpoint. destruct data as [[[question|] top_k]|]; simpl.
  - unfold query. destruct (self_index self) as [idx|]; simpl.
    + destruct (run_query eng idx (default 3%Z top_k) question); simpl;
        (split; [|done]); [by left|by right].
    + split; [by right|done].
  - split; [by right|done].
  - split; [by right|done].
Qed.

(** * Further properties of the extraction *)

Lemma length_newlines n : String.length (Py.newlines n) = n.
Proof. induction n as [|n IH]; simpl; [done|by rewrite IH]. Qed.

Lemma length_sub_newlines s :
  ∀ pending, String.length (Py.sub_newlines pending s) ≤ pending + String.length s.
Proof.
  induction s as [|c s IH]; intros pending; simpl.
  - rewrite length_newlines. lia.
  - destruct (Ascii.eqb c Py.newline).
    + specialize (IH (S pending)). lia.
    + rewrite length_append, length_newlines. simpl. specialize (IH 0). lia.
Qed.

Lemma length_lstrip s : String.length (Py.lstrip s) ≤ String.length s.
Proof.
  induction s as [|c s IH]; simpl; [done|].
  destruct (Py.isspace c); simpl; lia.
Qed.

Lemma length_rstrip s : String.length (Py.rstrip s) ≤ String.length s.
Proof.
  induction s as [|c s IH]; simpl; [done|].
  destruct (Py.rstrip s) as [|c' r]; simpl in *.
  - destruct (Py.isspace c); simpl; lia.
  - lia.
Qed.

(** The normalized text is never longer than the text read from the
    region. *)
Lemma length_extract_text (main_content : Region) :
  String.length (extract_text main_content)
  ≤ String.length (text_lines main_content).
Proof.
  unfold extract_text, Py.strip.
  pose proof (length_rstrip (Py.lstrip (Py.sub_newlines 0 (text_lines main_content)))).
  pose proof (length_lstrip (Py.sub_newlines 0 (text_lines main_content))).
  pose proof (length_sub_newlines (text_lines main_content) 0). lia.
Qed.

(** A string is clean at the front when it is empty or starts with a
    character that is not a space: [lstrip] gives such strings, [rstrip]
    keeps them so, and [lstrip] leaves them alone. *)
Lemma lstrip_front s :
  match Py.lstrip s with
  | EmptyString => True
  | String c _ => Py.isspace c = false
  end.
Proof.
  induction s as [|c s IH]; simpl; [done|].
  by destruct (Py.isspace c) eqn:Hc.
Qed.

Lemma rstrip_front s :
  match s with
  | EmptyString => True
  | String c _ => Py.isspace c = false
  end →
  match Py.rstrip s with
  | EmptyString => True
  | String c _ => Py.isspace c = false
  end.
Proof.
  destruct s as [|c s]; simpl; [done|]. intros Hc.
  destruct (Py.rstrip s); [by rewrite Hc|done].
Qed.

Lemma lstrip_clean s :
  match s with
  | EmptyString => True
  | String c _ => Py.isspace c = false
  end →
  Py.lstrip s = s.
Proof. destruct s as [|c s]; simpl; [done|]. by intros ->. Qed.

Lemma rstrip_idempotent s : Py.rstrip (Py.rstrip s) = Py.rstrip s.
Proof.
  induction s as [|c s IH]; simpl; [done|].
  destruct (Py.rstrip s) as [|c' r] eqn:Hr.
  - destruct (Py.isspace c) eqn:Hc; simpl; [done|by rewrite Hc].
  - simpl in *. by rewrite IH.
Qed.

Lemma strip_idempotent s : Py.strip (Py.strip s) = Py.strip s.
Proof.
  unfold Py.strip.
  rewrite (lstrip_clean (Py.rstrip (Py.lstrip s))).
  - apply rstrip_idempotent.
  - apply rstrip_front, lstrip_front.
Qed.

(** [contains] along the string: an occurrence in a tail or in a front
    part is an occurrence in the whole. *)
Lemma contains_cons c s p :
  Py.contains (String c s) p
  = if String.prefix p (String c s) then true else Py.contains s p.
Proof. reflexivity. Qed.

Lemma contains_tail c s p :
  Py.contains s p = true → Py.contains (String c s) p = true.
Proof.
  intros Hs. rewrite contains_cons, Hs.
  by destruct (String.prefix p (String c s)).
Qed.

Lemma prefix_append p :
  ∀ a b, String.prefix p a = true → String.prefix p (a +:+ b) = true.
Proof.
  induction p as [|x p IH]; intros a b.
  - intros _. by destruct (a +:+ b).
  - destruct a as [|y a]; simpl; [discriminate|].
    destruct (ascii_dec x y); [apply IH|discriminate].
Qed.

Lemma contains_append a b p :
  Py.contains a p = true → Py.contains (a +:+ b) p = true.
Proof.
  induction a as [|c a IH].
  - intros Hp. destruct p; [|discriminate]. by destruct b.
  - rewrite contains_cons.
    change (String c a +:+ b) with (String c (a +:+ b)).
    rewrite contains_cons.
    destruct (String.prefix p (String c a)) eqn:Hp.
    + intros _. apply (prefix_append p (String c a) b) in Hp.
      change (String c a +:+ b) with (String c (a +:+ b)) in Hp.
      by rewrite Hp.
    + intros Ha. rewrite (IH Ha).
      by destruct (String.prefix p (String c (a +:+ b))).
Qed.

Lemma lstrip_contains s p :
  Py.contains (Py.lstrip s) p = true → Py.contains s p = true.
Proof.
  induction s as [|c s IH]; [done|].
  cbn [Py.lstrip]. destruct (Py.isspace c); [|done].
  intros H. by apply contains_tail, IH.
Qed.

Lemma rstrip_split s : ∃ w, s = Py.rstrip s +:+ w.
Proof.
  induction s as [|c s [w Hw]]; simpl; [by exists ""|].
  destruct (Py.rstrip s) as [|c' r] eqn:Hr; simpl in *.
  - change ("" +:+ w) with w in Hw. subst w.
    destruct (Py.isspace c); [by exists (String c s)|by exists s].
  - exists w. by rewrite Hw at 1.
Qed.

Lemma rstrip_contains s p :
  Py.contains (Py.rstrip s) p = true → Py.contains s p = true.
Proof.
  intros H. destruct (rstrip_split s) as [w Hw]. rewrite Hw.
  by apply contains_append.
Qed.

Lemma append_nil_l s : "" +:+ s = s.
Proof. reflexivity. Qed.

Lemma append_cons c s1 s2 : String c s1 +:+ s2 = String c (s1 +:+ s2).
Proof. reflexivity. Qed.

Lemma contains_after_newlines k c s :
  Ascii.eqb c Py.newline = false →
  k ≤ 2 →
  Py.contains (Py.newlines k +:+ String c s) (Py.newlines 3)
  = Py.contains s (Py.newlines 3).
Proof.
  intros Hc Hk.
  assert (Hne : Py.newline ≠ c).
  { intros <-. by rewrite Ascii.eqb_refl in Hc. }
  destruct k as [|[|[|k]]]; [| | |lia];
    cbn [Py.newlines]; rewrite ?append_cons, append_nil_l, !contains_cons;
    cbn [String.prefix];
    repeat (destruct (ascii_dec _ _); try done).
Qed.

(** After [sub_newlines] no three newlines stand in a row, whatever the
    count of pending newlines. *)
Lemma sub_newlines_no_triple s :
  ∀ pending,
    Py.contains (Py.sub_newlines pending s) (Py.newlines 3) = false.
Proof.
  induction s as [|c s IH]; intros pending.
  - cbn [Py.sub_newlines]. by destruct pending as [|[|[|pending]]].
  - cbn [Py.sub_newlines]. destruct (Ascii.eqb c Py.newline) eqn:Hc.
    + apply IH.
    + rewrite contains_after_newlines; [apply IH|done|lia].
Qed.

(** X19. The text of a Document is normalized: it is never longer than
    the text read from the content region; it has no white space at
    either end (stripping it again changes nothing); and it holds no three
    newlines in a row. *)
Theorem extract_text_normalized (main_content : Region) :
  let t := extract_text main_content in
  String.length t ≤ String.length (text_lines main_content)
  ∧ Py.strip t = t
  ∧ Py.contains t (Py.newlines 3) = false.
Proof.
  split_and!.
  - apply length_extract_text.
  - apply strip_idempotent.
  - unfold extract_text, Py.strip.
    destruct (Py.contains (Py.rstrip (Py.lstrip
                (Py.sub_newlines 0 (text_lines main_content))))
                (Py.newlines 3)) eqn:Hc; [|done].
    apply rstrip_contains, lstrip_contains in Hc.
    by rewrite sub_newlines_no_triple in Hc.
Qed.

(** The fallback picks, among the [div]s, one of greatest text length. *)
Lemma largest_div_spec ds :
  ∀ d,
    largest_div d ds ∈ d :: ds
    ∧ ∀ d', d' ∈ d :: ds →
        String.length (text_strip d')
        ≤ String.length (text_strip (largest_div d ds)).
Proof.
  unfold largest_div.
  induction ds as [|x ds IH]; intros d; simpl.
  - split; [by left|]. by intros d' ->%list_elem_of_singleton.
  - destruct (Nat.ltb (String.length (text_strip d))
                (String.length (text_strip x))) eqn:Hlt.
    + apply Nat.ltb_lt in Hlt. destruct (IH x) as [Hin Hmax].
      split; [by right|].
      intros d' [->|Hd']%elem_of_cons; [|by apply Hmax].
      specialize (Hmax x (list_elem_of_here _ _)). lia.
    + apply Nat.ltb_ge in Hlt. destruct (IH d) as [Hin Hmax].
      split.
      * apply elem_of_cons in Hin as [->|Hin]; [by left|right; by right].
      * intros d' [->|[->|Hd']%elem_of_cons]%elem_of_cons.
        -- apply Hmax. by left.
        -- specialize (Hmax d (list_elem_of_here _ _)). lia.
        -- apply Hmax. by right.
Qed.

(** X20. Selection of the content region. The region selected is the
    first candidate present in the order article, main, div.content,
    div[role=main], div.markdown, div#content, div.docs-content,
    div.page-content, section.content, whatever its text; only when none
    is present is a [div] selected, one of greatest text length among all
    the [div]s of the page and of at least 500 characters. No region is
    selected exactly when no candidate is present and every [div] has
    fewer than 500 characters of text. *)
Theorem select_main_content_spec (soup : Page) :
  let cascade :=
    omap id [find_article soup; find_main soup; find_div_class_content soup;
             find_div_role_main soup; find_div_class_markdown soup;
             find_div_id_content soup; find_div_class_docs_content soup;
             find_div_class_page_content soup;
             find_section_class_content soup] in
  (∀ m, select_main_content soup = Some m →
        head cascade = Some m
        ∨ (cascade = []
           ∧ m ∈ find_all_div soup
           ∧ 500 ≤ String.length (text_strip m)
           ∧ ∀ d, d ∈ find_all_div soup →
                  String.length (text_strip d) ≤ String.length (text_strip m)))
  ∧ (select_main_content soup = None
     ↔ cascade = []
       ∧ ∀ d, d ∈ find_all_div soup → String.length (text_strip d) < 500).
Proof.
  unfold select_main_content.
  destruct soup as [a1 a2 a3 a4 a5 a6 a7 a8 a9 divs title]. simpl.
  destruct a1 as [r|];
    [split; [intros m [= <-]; by left|split; [done|by intros [? _]]]|].
  destruct a2 as [r|];
    [split; [intros m [= <-]; by left|split; [done|by intros [? _]]]|].
  destruct a3 as [r|];
    [split; [intros m [= <-]; by left|split; [done|by intros [? _]]]|].
  destruct a4 as [r|];
    [split; [intros m [= <-]; by left|split; [done|by intros [? _]]]|].
  destruct a5 as [r|];
    [split; [intros m [= <-]; by left|split; [done|by intros [? _]]]|].
  destruct a6 as [r|];
    [split; [intros m [= <-]; by left|split; [done|by intros [? _]]]|].
  destruct a7 as [r|];
    [split; [intros m [= <-]; by left|split; [done|by intros [? _]]]|].
  destruct a8 as [r|];
    [split; [intros m [= <-]; by left|split; [done|by intros [? _]]]|].
  destruct a9 as [r|];
    [split; [intros m [= <-]; by left|split; [done|by intros [? _]]]|].
  simpl. destruct divs as [|d ds].
  - split; [done|]. split; [|done]. intros _. split; [done|].
    by intros d ?%elem_of_nil.
  - destruct (largest_div_spec ds d) as [Hin Hmax].
    destruct (Nat.ltb (String.length (text_strip (largest_div d ds))) 500)
      eqn:Hlt.
    + apply Nat.ltb_lt in Hlt. split; [done|]. split; [|done].
      intros _. split; [done|]. intros d' Hd'. specialize (Hmax d' Hd'). lia.
    + apply Nat.ltb_ge in Hlt. split.
      * intros m [= <-]. right. done.
      * split; [done|]. intros [_ Hall]. specialize (Hall _ Hin). lia.
Qed.

(** The trace of an iteration that visits. *)
Lemma loop_body_visit_trace w base_domain max_pages st url rest :
  urls_to_visit st = url :: rest →
  url ∉ visited_urls st →
  fetched (trace (loop_body w base_domain max_pages st))
  = fetched (trace st) ++ [url].
Proof.
  intros Hq Hfresh. unfold loop_body. rewrite Hq. simpl.
  rewrite bool_decide_eq_false_2 by done.
  destruct (visit_page_trace w base_domain max_pages url
              (mark_visited url (set_queue rest st))) as (tl & -> & Htl).
  simpl. rewrite fetched_app. by destruct Htl as [->| ->].
Qed.

(** X21. The page number of a Document is the rank of its page among the
    requests of the crawl: the request number [page_number], counting
    from 1, is the one for the Document's source. Failed and skipped pages
    use up their number. *)
Theorem page_number_is_request_rank w ledger start_url max_pages st :
  scrape_langchain_docs w ledger start_url max_pages = Some (Ok st) →
  Forall (λ d, (1 ≤ md_page_number (metadata d))%Z
               ∧ fetched (trace st)
                   !! Z.to_nat (md_page_number (metadata d) - 1)
                 = Some (md_source (metadata d)))
         (documents st).
Proof.
  intros Hrun. destruct (scrape_parsed _ _ _ _ _ Hrun) as [parsed Hparse].
  enough (Hinv :
    Z.of_nat (length (fetched (trace st))) = page_count st
    ∧ Forall (λ d, (1 ≤ md_page_number (metadata d))%Z
                   ∧ fetched (trace st)
                       !! Z.to_nat (md_page_number (metadata d) - 1)
                     = Some (md_source (metadata d)))
             (documents st)) by apply Hinv.
  revert Hrun.
  apply (scrape_preserves
           (λ st, Z.of_nat (length (fetched (trace st))) = page_count st
                  ∧ Forall (λ d, (1 ≤ md_page_number (metadata d))%Z
                                 ∧ fetched (trace st)
                                     !! Z.to_nat (md_page_number (metadata d) - 1)
                                   = Some (md_source (metadata d)))
                           (documents st))
           w ledger start_url max_pages parsed); [done| |].
  - simpl. split; [done|constructor].
  - clear st. intros st [Hlen Hall] _.
    destruct (loop_body_spec w (base_domain_of parsed) max_pages st)
      as [(_ & ->)|[(url & rest & _ & _ & ->)|
                    (url & rest & extra & Hq & Hfresh & _ & Hpc & _ & _ & _ & Hd)]];
      [done|done|].
    pose proof (loop_body_visit_trace w (base_domain_of parsed) max_pages
                  st url rest Hq Hfresh) as Htr.
    rewrite Htr, Hpc, length_app. simpl. split; [lia|].
    assert (Hold : Forall (λ d, (1 ≤ md_page_number (metadata d))%Z
                     ∧ (fetched (trace st) ++ [url])
                         !! Z.to_nat (md_page_number (metadata d) - 1)
                       = Some (md_source (metadata d))) (documents st)).
    { eapply Forall_impl; [exact Hall|]. simpl. intros d [Hn Hlk].
      split; [done|]. by apply lookup_app_l_Some. }
    destruct Hd as [(-> & _)|(title & text & _ & -> & _)]; [done|].
    apply Forall_app. split; [done|]. apply Forall_singleton. simpl.
    split; [lia|].
    replace (Z.to_nat (page_count st + 1 - 1)) with (length (fetched (trace st)))
      by lia.
    by rewrite lookup_app_r, Nat.sub_diag.
Qed.

Lemma page_number_is_request_rank_witness :
  ∃ st,
    scrape_langchain_docs Scenario.broken_link [] Scenario.overview 5
    = Some (Ok st)
    ∧ fetched (trace st)
      = [Scenario.overview; Scenario.install; Scenario.quickstart]
    ∧ (λ d, (md_source (metadata d), md_page_number (metadata d)))
        <$> documents st
      = [(Scenario.overview, 1%Z); (Scenario.quickstart, 3%Z)]
    ∧ Forall (λ d, (1 ≤ md_page_number (metadata d))%Z
                   ∧ fetched (trace st)
                       !! Z.to_nat (md_page_number (metadata d) - 1)
                     = Some (md_source (metadata d)))
             (documents st).
Proof.
  eexists.
  match goal with
  | |- ?run = Some (Ok ?s) ∧ _ =>
      assert (Hrun : run = Some (Ok s)) by (vm_compute; reflexivity)
  end.
  split; [exact Hrun|]. split; [reflexivity|]. split; [reflexivity|].
  exact (page_number_is_request_rank _ _ _ _ _ Hrun).
Defined.

